(** * LocalDaypoTest: the bank decoder and the session engine of
    [local_daypo.py], embedded in Rocq.

    The embedding follows the Python source function by function.  Python
    integers are [Z], Python strings are [string] (one [ascii] per
    character), Python lists are [list], dictionaries are [gmap], [None] is
    the [None] of [option].  An uncaught Python exception is the [Raise]
    outcome of the [Result] monad; a handler that shows a message box and
    returns [False] is an ordinary (failed) result. *)

From Stdlib Require Import ZArith List Ascii String Sorted Permutation Lia Bool.
From stdpp Require Import base option list gmap strings sorting.

Local Open Scope string_scope.
Local Open Scope list_scope.
#[local] Set Warnings "-register-all".

(** ** Python strings *)

Definition chars (s : string) : list ascii := list_ascii_of_string s.
Definition str (l : list ascii) : string := string_of_list_ascii l.

(** [str.isspace] on the ASCII range: TAB..CR, FS..US and SPACE. *)
Definition isspace (c : ascii) : bool :=
  let n := nat_of_ascii c in
  ((9 <=? n)%nat && (n <=? 13)%nat) || ((28 <=? n)%nat && (n <=? 32)%nat).

Fixpoint lstrip (l : list ascii) : list ascii :=
  match l with
  | [] => []
  | c :: l' => if isspace c then lstrip l' else l
  end.

(** [s.strip()] *)
Definition strip (s : string) : string :=
  str (rev (lstrip (rev (lstrip (chars s))))).

Fixpoint split_go (cur : list ascii) (l : list ascii) : list string :=
  match l with
  | [] => match cur with [] => [] | _ => [str (rev cur)] end
  | c :: l' =>
      if isspace c
      then match cur with
           | [] => split_go [] l'
           | _ => str (rev cur) :: split_go [] l'
           end
      else split_go (c :: cur) l'
  end.

(** [s.split()]: the maximal runs of non-whitespace characters. *)
Definition split (s : string) : list string := split_go [] (chars s).

(** [c in s] for a one-character string [c]. *)
Definition contains (c : ascii) (s : string) : bool :=
  existsb (Ascii.eqb c) (chars s).

Fixpoint after_first (c : ascii) (l : list ascii) : option (list ascii) :=
  match l with
  | [] => None
  | x :: l' => if Ascii.eqb x c then Some l' else after_first c l'
  end.

(** ["".join(l)] *)
Definition join (l : list string) : string := fold_right String.append "" l.

(** [enumerate(l)] *)
Definition enumerate {A} (l : list A) : list (Z * A) :=
  zip (seqZ 0 (Z.of_nat (length l))) l.

(** ** Exceptions *)

Inductive Exn := AttributeError | TypeError | ValueError.

Inductive Result (A : Type) :=
| Ok (a : A)
| Raise (e : Exn).
Arguments Ok {A} a.
Arguments Raise {A} e.

Definition bind {A B} (r : Result A) (k : A -> Result B) : Result B :=
  match r with
  | Ok a => k a
  | Raise e => Raise e
  end.

Notation "'let*' x ':=' r 'in' k" := (bind r (fun x => k))
  (at level 10, x pattern, r at level 100, k at level 200).

(** A list comprehension whose element expression may raise: evaluation is
    left to right and stops at the first exception. *)
Fixpoint traverse {A B} (f : A -> Result B) (l : list A) : Result (list B) :=
  match l with
  | [] => Ok []
  | x :: l' => let* y := f x in let* ys := traverse f l' in Ok (y :: ys)
  end.

(** ** [int(s)] on a [str] *)

Definition digit_value (c : ascii) : option Z :=
  let n := nat_of_ascii c in
  if ((48 <=? n)%nat && (n <=? 57)%nat) then Some (Z.of_nat (n - 48)) else None.

(** Digits with single underscores between them; [sep] tells that the
    previous character was not a digit. *)
Fixpoint digits_value (acc : Z) (sep : bool) (l : list ascii) : option Z :=
  match l with
  | [] => if sep then None else Some acc
  | c :: l' =>
      match digit_value c with
      | Some d => digits_value (10 * acc + d) false l'
      | None =>
          if Ascii.eqb c "_" && negb sep then digits_value acc true l' else None
      end
  end.

Definition py_int (s : string) : Result Z :=
  let body := rev (lstrip (rev (lstrip (chars s)))) in
  let signed :=
    match body with
    | "-"%char :: l => Z.opp <$> digits_value 0 true l
    | "+"%char :: l => digits_value 0 true l
    | l => digits_value 0 true l
    end in
  match signed with
  | Some z => Ok z
  | None => Raise ValueError
  end.

(** ** [textwrap.wrap(s, 2)]

    Answer codes are digit strings, and [wrap2] is [textwrap.wrap(s, 2)]
    on these only: on a string without whitespace and without hyphens the
    text is one word, a word longer than the width is broken every [width]
    characters, so the lines are the consecutive 2-character pieces (the
    last one has 1 character when the length is odd) and the empty string
    has no line.  On a string with whitespace or a hyphen [textwrap.wrap]
    splits elsewhere and drops whitespace; [wrap2] does not model that, and
    what is proved below about the groups of an answer string is stated
    for digit groups. *)
Fixpoint wrap2_go (l : list ascii) : list string :=
  match l with
  | [] => []
  | [a] => [str [a]]
  | a :: b :: l' => str [a; b] :: wrap2_go l'
  end.

Definition wrap2 (s : string) : list string := wrap2_go (chars s).

(** ** The element tree of [xml.etree.ElementTree]

    [tag] is in Clark notation ([{uri}local]) for a namespace-qualified
    name, as the parser delivers it. *)

Inductive Element : Type :=
  mkElement {
    tag : string;
    attrib : gmap string string;
    text : option string;
    children : list Element;
    tail : option string
  }.

(** [e.iter()]: the element and its descendants in document order. *)
Fixpoint iter (e : Element) : list Element :=
  match e with
  | mkElement _ _ _ cs _ =>
      e :: (fix go (l : list Element) : list Element :=
              match l with
              | [] => []
              | c :: l' => iter c ++ go l'
              end) cs
  end.

(** [e.findall(t)]: the children of [e] whose tag is [t]. *)
Definition findall (t : string) (e : Element) : list Element :=
  filter (fun c => tag c = t) (children e).

(** [e.find(t)] *)
Definition find (t : string) (e : Element) : option Element :=
  head (findall t e).

(** [e.findall('.//a/b')]: for every proper descendant of [e] tagged [a],
    in document order, its children tagged [b]. *)
Definition findall_desc (a b : string) (e : Element) : list Element :=
  flat_map (findall b)
    (filter (fun d => tag d = a) (flat_map iter (children e))).

(** [e.find('.//a/b')] *)
Definition find_desc (a b : string) (e : Element) : option Element :=
  head (findall_desc a b e).

Definition text_chunk (t : option string) : list string :=
  match t with
  | Some s => if decide (s = "") then [] else [s]
  | None => []
  end.

(** [e.itertext()] *)
Fixpoint itertext (e : Element) : list string :=
  match e with
  | mkElement _ _ t cs _ =>
      text_chunk t ++
      (fix go (l : list Element) : list string :=
         match l with
         | [] => []
         | c :: l' => itertext c ++ text_chunk (tail c) ++ go l'
         end) cs
  end.

(** The loop of [load_new_test_from_file] over the [iterparse] events:
    [if '}' in el.tag: el.tag = el.tag.split('}', 1)[1]]. *)
Definition strip_tag (t : string) : string :=
  match after_first "}" (chars t) with
  | Some local => str local
  | None => t
  end.

Fixpoint strip_namespaces (e : Element) : Element :=
  match e with
  | mkElement t a x cs tl =>
      mkElement (strip_tag t) a x
        ((fix go (l : list Element) : list Element :=
            match l with
            | [] => []
            | c :: l' => strip_namespaces c :: go l'
            end) cs) tl
  end.

(** ** 1. Model *)

(** The values of [Question.type]: ['single'], ['multiple'], ['ordering'].
    The fields [text] and [type] of [Question] are [q_text] and [q_type]
    here ([text] is the text of an [Element], [type] is reserved). *)
Inductive QType := single | multiple | ordering.

#[global] Instance QType_eq_dec : EqDecision QType.
Proof. solve_decision. Defined.

Record Question := mkQuestion {
  q_text : string;
  q_type : QType;
  options : list string;
  correct_indices : list Z;
  image_data : option (list Byte.byte);
  user_answer_indices : list Z;
  user_input : list Z;
  is_answered : bool;
  is_correct : option bool
}.

(** [Question.__init__] *)
Definition new_Question (txt : string) (ty : QType) (opts : list string)
    (correct : list Z) (img : option (list Byte.byte)) : Question :=
  {| q_text := txt; q_type := ty; options := opts; correct_indices := correct;
     image_data := img; user_answer_indices := []; user_input := [];
     is_answered := false; is_correct := None |}.

Record Test := mkTest {
  questions : list Question;
  current_question_index : Z;
  title : string
}.

(** [Test.__init__] *)
Definition new_Test : Test :=
  {| questions := []; current_question_index := 0; title := "Practice Test" |}.

Definition num_correct (t : Test) : nat :=
  length (filter (fun q => is_correct q = Some true) (questions t)).
Definition num_incorrect (t : Test) : nat :=
  length (filter (fun q => is_correct q = Some false) (questions t)).
Definition num_answered (t : Test) : nat :=
  length (filter (fun q => is_answered q = true) (questions t)).

(** ** Sorting

    [sorted] and [list.sort] are stable; the result of a stable sort is
    the same for every algorithm, here insertion from the right. *)

Fixpoint insert_sorted {A} (le : A -> A -> bool) (x : A) (l : list A) : list A :=
  match l with
  | [] => [x]
  | y :: l' => if le x y then x :: l else y :: insert_sorted le x l'
  end.

Definition py_sorted {A} (le : A -> A -> bool) (l : list A) : list A :=
  fold_right (insert_sorted le) [] l.

(** The order of Python tuples [(pos, index)]: lexicographic. *)
Definition tuple_le (a b : Z * Z) : bool :=
  (a.1 <? b.1)%Z || ((a.1 =? b.1)%Z && (a.2 <=? b.2)%Z).

(** ** 2. Controller: the bank decoder ([load_new_test_from_file]) *)

Section Decoder.

(** [base64.b64decode]; [None] stands for [binascii.Error]. *)
Variable b64decode : string -> option (list Byte.byte).

(** Lines 81-93: the image table. *)
Definition decode_image (images_data : gmap string (list Byte.byte))
    (img_node : Element) : gmap string (list Byte.byte) :=
  match attrib img_node !! "p", text img_node with
  | Some img_key, Some base64_full_string =>
      if bool_decide (img_key <> "") && bool_decide (base64_full_string <> "")
      then match after_first "," (chars base64_full_string) with
           | Some base64_data =>
               match b64decode (str base64_data) with
               | Some image_bytes => <[img_key := image_bytes]> images_data
               | None => images_data
               end
           | None => images_data
           end
      else images_data
  | _, _ => images_data
  end.

Definition decode_images (root : Element) : gmap string (list Byte.byte) :=
  match find "i" root with
  | Some image_container => foldl decode_image ∅ (findall "i" image_container)
  | None => ∅
  end.

(** Lines 122-124: [[i for i, code in enumerate(answer_code) if code == '2']]. *)
Definition choice_correct_indices (answer_code : string) : list Z :=
  (filter (fun ic => ic.2 = "2"%char) (enumerate (chars answer_code))).*1.

(** Lines 131-141. *)
Definition ordering_correct_indices (num_options : Z) (answer_code : string)
    : Result (list Z) :=
  let answer_positions_str := wrap2 answer_code in
  let* answer_positions :=
    traverse (fun p => if decide (p <> "00") then py_int p else Ok num_options)
      answer_positions_str in
  let sorted_options :=
    (fun ip => (ip.2, ip.1)) <$>
      filter (fun ip => (ip.1 < num_options)%Z) (enumerate answer_positions) in
  Ok ((py_sorted tuple_le sorted_options).*2).

(** Line 116: the option texts of a question node. *)
Definition node_options (question_node : Element) : list string :=
  (fun opt => match text opt with
              | Some s => if decide (s = "") then "" else strip s
              | None => ""
              end) <$> findall_desc "r" "o" question_node.

(** Lines 112-114: the image a question node refers to. *)
Definition node_image (images_data : gmap string (list Byte.byte))
    (question_node : Element) : option (list Byte.byte) :=
  let img_ref :=
    match find "b" question_node with
    | Some img_ref_node => attrib img_ref_node !! "p"
    | None => None
    end in
  match img_ref with
  | Some r => if decide (r = "") then None else images_data !! r
  | None => None
  end.

(** Lines 128-129: a single option with a space in it is split. *)
Definition ordering_options (opts : list string) : list string :=
  match opts with
  | [o] => if contains " " o then split o else opts
  | _ => opts
  end.

(** Lines 101-144: the body of the loop over the question nodes.
    [Ok None] is a node that appends nothing. *)
Definition decode_question_node (images_data : gmap string (list Byte.byte))
    (question_node : Element) : Result (option Question) :=
  match find "t" question_node with
  | None => Ok None
  | Some question_type_tag =>
  match text question_type_tag with
  | None => Ok None
  | Some q_type_code =>
  match find "p" question_node with
  | None => Ok None
  | Some p_tag =>
  let txt := strip (join (itertext p_tag)) in
  let question_image_data := node_image images_data question_node in
  let opts := node_options question_node in
  match find "c" question_node with
  | None => Raise AttributeError
  | Some answer_node =>
  let answer_code := text answer_node in
  let* (ty, opts, correct) :=
    if decide (q_type_code = "1") then
      match answer_code with
      | None => Raise TypeError
      | Some code =>
          let correct := choice_correct_indices code in
          Ok (Some (if decide (length correct = 1%nat) then single else multiple),
              opts, correct)
      end
    else if decide (q_type_code = "6") then
      let opts := ordering_options opts in
      let num_options := Z.of_nat (length opts) in
      match answer_code with
      | None => Raise AttributeError
      | Some code =>
          let* correct := ordering_correct_indices num_options code in
          Ok (Some ordering, opts, correct)
      end
    else Ok (None, opts, []) in
  match ty, opts, correct with
  | Some ty, _ :: _, _ :: _ =>
      Ok (Some (new_Question txt ty opts correct question_image_data))
  | _, _, _ => Ok None
  end
  end end end end.

(** Lines 100-144: the loop, appending to [new_test.questions]. *)
Fixpoint decode_questions (images_data : gmap string (list Byte.byte))
    (nodes : list Element) : Result (list Question) :=
  match nodes with
  | [] => Ok []
  | node :: nodes' =>
      let* q := decode_question_node images_data node in
      let* qs := decode_questions images_data nodes' in
      Ok (match q with Some q => q :: qs | None => qs end)
  end.

(** The ways [load_new_test_from_file] shows a message box and returns
    [False]. *)
Inductive LoadError :=
| NoQuestionContainer (* lines 96-98 *)
| NoValidQuestions.   (* lines 146-148 *)

(** Lines 73-148 on the tree [parsed] that the XML parser builds from the
    file's text.  [iterparse] and [ET.fromstring] each parse that text, so
    each starts from its own copy of [parsed]. *)
Definition decode (parsed : Element) : Result (LoadError + Test) :=
  (* lines 73-76: the tags of the iterparse elements are rewritten *)
  let it := strip_namespaces parsed in
  (* line 77: root = ET.fromstring(xml_string) *)
  let root := parsed in
  match find_desc "p" "t" root with
  | None => Raise AttributeError
  | Some title_node =>
  let new_title :=
    match text title_node with
    | Some s => if decide (s = "") then "Practice Test" else s
    | None => "Practice Test"
    end in
  let images_data := decode_images root in
  match find "c" root with
  | None => Ok (inl NoQuestionContainer)
  | Some question_container =>
  let* qs := decode_questions images_data (findall "c" question_container) in
  match qs with
  | [] => Ok (inl NoValidQuestions)
  | _ => Ok (inr {| questions := qs; current_question_index := 0;
                    title := new_title |})
  end
  end end.

End Decoder.

(** ** 2. Controller: the session engine

    Of the controller's fields the operations below read and write
    [self.test]; the file names are left to the environment
    ([ProgressStore], [Source]). *)

(** *** Progress data

    The value handed to [json.dump] and returned by [json.load]: a
    dictionary with string keys.  A key that a hand-edited file may lack is
    an [option] field.  Lists of integers, booleans, [None] and strings
    come back from JSON as they went in. *)

Record SavedQuestion := mkSavedQuestion {
  sq_text : option string;
  sq_user_answer_indices : option (list Z);
  sq_user_input : option (list Z);
  sq_is_answered : option bool;
  sq_is_correct : option (option bool)
}.

Record ProgressData := mkProgressData {
  pd_current_question_index : option Z;
  pd_questions : option (list SavedQuestion)
}.

(** [Question.to_dict] *)
Definition to_dict (self : Question) : SavedQuestion :=
  {| sq_text := Some (q_text self);
     sq_user_answer_indices := Some (user_answer_indices self);
     sq_user_input := Some (user_input self);
     sq_is_answered := Some (is_answered self);
     sq_is_correct := Some (is_correct self) |}.

(** [Question.from_dict] *)
Definition from_dict (self : Question) (data : SavedQuestion) : Question :=
  {| q_text := q_text self; q_type := q_type self; options := options self;
     correct_indices := correct_indices self; image_data := image_data self;
     user_answer_indices := default [] (sq_user_answer_indices data);
     user_input := default [] (sq_user_input data);
     is_answered := default false (sq_is_answered data);
     is_correct := default None (sq_is_correct data) |}.

(** Lines 166-169 of [save_progress]: the dictionary that is written. *)
Definition progress_data (t : Test) : ProgressData :=
  {| pd_current_question_index := Some (current_question_index t);
     pd_questions := Some (to_dict <$> questions t) |}.

(** Line 183: [{q['text']: q for q in progress_data['questions']}]; a later
    entry replaces an earlier one with the same text.  [None] is the
    [KeyError] of an entry without ['text']. *)
Definition saved_questions_map (saved : list SavedQuestion)
    : option (gmap string SavedQuestion) :=
  foldl (fun acc q => m ← acc; t ← sq_text q; Some (<[t := q]> m)) (Some ∅) saved.

(** Lines 183-187 of [check_and_load_progress].  [None] is a [KeyError]:
    it is raised before any question is touched, is caught, and leaves
    the test as it was. *)
Definition restore_progress (t : Test) (pd : ProgressData) : option Test :=
  saved ← pd_questions pd;
  m ← saved_questions_map saved;
  Some {| questions :=
            (fun q_obj => match m !! q_text q_obj with
                          | Some data => from_dict q_obj data
                          | None => q_obj
                          end) <$> questions t;
          current_question_index := default 0%Z (pd_current_question_index pd);
          title := title t |}.

(** What [check_and_load_progress] finds: no progress file, or a file, the
    user's answer to the dialog and the outcome of [json.load] ([None]
    is [json.JSONDecodeError]). *)
Inductive ProgressStore :=
| NoProgressFile
| ProgressFile (resume : bool) (content : option ProgressData).

Definition check_and_load_progress (t : Test) (store : ProgressStore) : Test :=
  match store with
  | NoProgressFile => t
  | ProgressFile false _ => t
  | ProgressFile true None => t
  | ProgressFile true (Some pd) => default t (restore_progress t pd)
  end.

(** What [open(filepath).read()] and the XML parser deliver. *)
Inductive Source :=
| FileNotFound
| ParseError
| Parsed (root : Element).

(** [load_new_test_from_file]: the new [self.test] and the returned
    boolean.  [FileNotFoundError] and [ET.ParseError] are caught (lines
    160-162); any other exception leaves the method. *)
Definition load_new_test_from_file (b64decode : string -> option (list Byte.byte))
    (self : Test) (src : Source) (store : ProgressStore) : Result (Test * bool) :=
  match src with
  | FileNotFound | ParseError => Ok (self, false)
  | Parsed parsed =>
      let* r := decode b64decode parsed in
      match r with
      | inl _ => Ok (self, false)
      | inr new_test => Ok (check_and_load_progress new_test store, true)
      end
  end.

(** [get_current_question] *)
Definition get_current_question (t : Test) : option Question :=
  if decide (0 <= current_question_index t < Z.of_nat (length (questions t)))%Z
  then questions t !! Z.to_nat (current_question_index t)
  else None.

(** [evaluate_answer]: the test after the call and the returned value. *)
Definition evaluate_answer (t : Test) (user_answer : list Z)
    (user_raw_input : option (list Z)) : Test * option bool :=
  match get_current_question t with
  | None => (t, None)
  | Some question =>
      let verdict :=
        if decide (q_type question = ordering)
        then bool_decide (user_answer = correct_indices question)
        else bool_decide (py_sorted Z.leb user_answer
                          = py_sorted Z.leb (correct_indices question)) in
      let question' :=
        {| q_text := q_text question; q_type := q_type question;
           options := options question;
           correct_indices := correct_indices question;
           image_data := image_data question;
           user_answer_indices := user_answer;
           user_input := default user_answer user_raw_input;
           is_answered := true;
           is_correct := Some verdict |} in
      ({| questions :=
            <[Z.to_nat (current_question_index t) := question']> (questions t);
          current_question_index := current_question_index t;
          title := title t |},
       Some verdict)
  end.

(** [next_question] *)
Definition next_question (t : Test) : Test * bool :=
  if decide (current_question_index t < Z.of_nat (length (questions t)) - 1)%Z
  then ({| questions := questions t;
           current_question_index := current_question_index t + 1;
           title := title t |}, true)
  else (t, false).

(** [previous_question] *)
Definition previous_question (t : Test) : Test * bool :=
  if decide (current_question_index t > 0)%Z
  then ({| questions := questions t;
           current_question_index := current_question_index t - 1;
           title := title t |}, true)
  else (t, false).

(** ** 3. View: the handlers that change the test *)

(** The value of an answer control: the integer of a [wx.SpinCtrl], the
    boolean of a [wx.CheckBox] or [wx.RadioButton]. *)
Inductive Control :=
| SpinCtrl (value : Z)
| Toggle (value : bool).

(** [ctrl.GetValue()] as an integer: a Python [bool] is the integer 1 or 0
    for equality, hashing and ordering. *)
Definition GetValue (c : Control) : Z :=
  match c with
  | SpinCtrl v => v
  | Toggle b => if b then 1%Z else 0%Z
  end.

(** The outcome of [on_submit]. *)
Inductive SubmitOutcome :=
| NoQuestion        (* line 483 *)
| InvalidAnswer     (* the message box of line 489 *)
| Evaluated (verdict : bool).

(** [len(set(values))] *)
Definition distinct_count (values : list Z) : nat := length (remove_dups values).

(** Lines 491-492: the option indices in the order of their numbers,
    [sorted(enumerate(values), key=lambda x: x[1])] without the numbers. *)
Definition ordering_user_indices (user_input_values : list Z) : list Z :=
  (py_sorted (fun a b => (a.2 <=? b.2)%Z) (enumerate user_input_values)).*1.

(** Line 495: the indices of the marked controls,
    [[i for i, control in enumerate(answer_controls) if control.GetValue()]]. *)
Definition choice_user_indices (answer_controls : list Control) : list Z :=
  (filter (fun ic => GetValue ic.2 <> 0%Z) (enumerate answer_controls)).*1.

(** Lines 482-496 of [on_submit]; [answer_controls] are the controls at
    the time of the click. *)
Definition on_submit (t : Test) (answer_controls : list Control)
    : Test * SubmitOutcome :=
  match get_current_question t with
  | None => (t, NoQuestion)
  | Some question =>
      if decide (q_type question = ordering) then
        let user_input_values := GetValue <$> answer_controls in
        if decide (distinct_count user_input_values <> length (options question))
        then (t, InvalidAnswer)
        else
          let user_indices := ordering_user_indices user_input_values in
          let r := evaluate_answer t user_indices (Some user_input_values) in
          (r.1, match r.2 with Some v => Evaluated v | None => NoQuestion end)
      else
        let user_indices := choice_user_indices answer_controls in
        let r := evaluate_answer t user_indices None in
        (r.1, match r.2 with Some v => Evaluated v | None => NoQuestion end)
  end.

(** Line 534: the reset of one question. *)
Definition reset_answer (q : Question) : Question :=
  {| q_text := q_text q; q_type := q_type q; options := options q;
     correct_indices := correct_indices q; image_data := image_data q;
     user_answer_indices := []; user_input := []; is_answered := false;
     is_correct := None |}.

(** [retry_incorrect] *)
Definition retry_incorrect (t : Test) (incorrect_questions : list Question) : Test :=
  {| questions := reset_answer <$> incorrect_questions;
     current_question_index := 0;
     title := title t |}.

(** Line 520 of [show_summary]:
    [[q for q in questions if not q.is_correct]]. *)
Definition incorrect_questions (t : Test) : list Question :=
  filter (fun q => is_correct q <> Some true) (questions t).

(** Line 471 of [update_feedback_and_nav] and line 352 of [update_view]:
    the state a refresh gives the submit button for the current question,
    when it gets as far as these lines. *)
Definition submit_button_enabled (t : Test) : bool :=
  match get_current_question t with
  | Some question => negb (is_answered question)
  | None => false
  end.

(** A click on the submit button of a view that is in step with the test,
    that is, whose last refresh got as far as line 471: wx delivers
    [EVT_BUTTON] to [on_submit] only while the button is enabled, and
    [on_submit] is bound to nothing else (line 309).  The buttons of a
    view whose refresh raised are the subject of [frame_click] below. *)
Definition click_submit (t : Test) (answer_controls : list Control) : Test :=
  if submit_button_enabled t then (on_submit t answer_controls).1 else t.

(** Lines 472-473 of [update_feedback_and_nav] (and lines 353-354 of
    [update_view] when there is no question): the states of the previous
    and next buttons. *)
Definition prev_button_enabled (t : Test) : bool :=
  match get_current_question t with
  | Some _ => bool_decide (current_question_index t > 0)%Z
  | None => false
  end.

Definition next_button_enabled (t : Test) : bool :=
  match get_current_question t with
  | Some _ =>
      bool_decide (current_question_index t < Z.of_nat (length (questions t)) - 1)%Z
  | None => false
  end.

(** [on_next] with [show_summary]: when there is no next question the
    summary is shown and, if some question is not correct and the user
    says yes ([retry]), [retry_incorrect] runs. *)
Definition on_next (t : Test) (retry : bool) : Test :=
  if (next_question t).2 then (next_question t).1
  else match incorrect_questions t with
       | [] => t
       | _ :: _ => if retry then retry_incorrect t (incorrect_questions t) else t
       end.

(** [on_prev] *)
Definition on_prev (t : Test) : Test := (previous_question t).1.

(** The clicks on the three buttons; [retry] is the user's answer to the
    summary dialog, should it appear. *)
Inductive Click :=
| ClickSubmit (answer_controls : list Control)
| ClickNext (retry : bool)
| ClickPrevious.

(** A click on a view that is in step with the test: the button states
    are those of lines 471-473 (or 352-354) for the current test, as after
    every refresh that does not raise, and a click reaches its handler only
    while its button is enabled.  [frame_click] below keeps the button
    states as part of the state and covers the refresh that raises. *)
Definition click (t : Test) (c : Click) : Test :=
  match c with
  | ClickSubmit answer_controls => click_submit t answer_controls
  | ClickNext retry => if next_button_enabled t then on_next t retry else t
  | ClickPrevious => if prev_button_enabled t then on_prev t else t
  end.

(** ** Notions used in the statements *)

(** The AnswerState of a question. *)
Definition answer_state (q : Question)
    : list Z * list Z * bool * option bool :=
  (user_answer_indices q, user_input q, is_answered q, is_correct q).

(** Option [i] is marked in the answer controls. *)
Definition is_selected (answer_controls : list Control) (i : Z) : Prop :=
  (0 <= i)%Z /\
  exists c, answer_controls !! Z.to_nat i = Some c /\ GetValue c <> 0%Z.

(** The value that the list [values] holds at the integer index [i]. *)
Definition value_at (values : list Z) (i : Z) : Z :=
  default 0%Z (values !! Z.to_nat i).

(** The last question of [saved] whose text is [x]. *)
Definition last_with_text (x : string) (saved : list Question) : option Question :=
  last (filter (fun s => q_text s = x) saved).

(** A freshly decoded instance of the bank that [t]'s questions come
    from: the same questions in the state [Question.__init__] gives them,
    cursor 0. *)
Definition fresh_test (t : Test) : Test :=
  {| questions := reset_answer <$> questions t;
     current_question_index := 0;
     title := title t |}.

(** A group of the answer string of an ordering question: two decimal
    digits. *)
Definition is_digit (c : ascii) : Prop :=
  (48 <= nat_of_ascii c <= 57)%nat.

Definition two_digits (g : string) : Prop :=
  exists a b : ascii, g = String a (String b EmptyString) /\ is_digit a /\ is_digit b.

(** The target position a group stands for: the number its two digits
    write, except that the group 00 stands for the last position,
    [num_options]. *)
Definition group_position (num_options : Z) (g : string) : Z :=
  if decide (g = "00") then num_options
  else match g with
       | String a (String b EmptyString) =>
           10 * (Z.of_nat (nat_of_ascii a) - 48) + (Z.of_nat (nat_of_ascii b) - 48)
       | _ => 0
       end.

(** The target position of option [i] under the groups [groups]. *)
Definition position_at (num_options : Z) (groups : list string) (i : Z) : Z :=
  group_position num_options (default "" (groups !! Z.to_nat i)).

(** Option [i] comes no later than option [j]: by target position, and by
    index among options with the same target position. *)
Definition ranks_before (num_options : Z) (groups : list string) (i j : Z) : Prop :=
  (position_at num_options groups i < position_at num_options groups j \/
   (position_at num_options groups i = position_at num_options groups j /\ i <= j))%Z.

#[global] Instance ranks_before_dec (num_options : Z) (groups : list string) :
  RelDecision (ranks_before num_options groups).
Proof. intros i j. unfold ranks_before. apply _. Defined.

(** ** Example data *)

Definition capital_question : Question :=
  new_Question "Capital of France?" single ["Paris"; "London"; "Rome"] [0%Z] None.

Definition pick_two_question : Question :=
  new_Question "Pick the vowels" multiple ["a"; "b"; "e"] [0%Z; 2%Z] None.

Definition abc_ordering_question : Question :=
  new_Question "Put in order" ordering ["A"; "B"; "C"] [1%Z; 0%Z; 2%Z] None.

Definition test_of (qs : list Question) : Test :=
  {| questions := qs; current_question_index := 0; title := "Practice Test" |}.

(** A two-question session in which the first question has been answered. *)
Definition answered_capital_test : Test :=
  (evaluate_answer (test_of [capital_question; pick_two_question]) [0%Z] None).1.

(** Element trees of small banks. *)
Definition el (t : string) (x : option string) (cs : list Element) : Element :=
  mkElement t ∅ x cs None.

Definition question_node (t code prompt : string) (opts : list string)
    (answer : string) : Element :=
  el t None [el "t" (Some code) []; el "p" (Some prompt) [];
             el "r" None ((fun o => el "o" (Some o) []) <$> opts);
             el "c" (Some answer) []].

Definition capital_node : Element :=
  question_node "c" "1" "Capital of France?" ["Paris"; "London"; "Rome"] "211".

Definition abc_node : Element :=
  question_node "c" "6" "Put in order" ["A"; "B"; "C"] "020100".

(** [<d><p><t>Geography</t></p><c><c>...</c></c></d>] *)
Definition capital_bank : Element :=
  el "d" None [el "p" None [el "t" (Some "Geography") []];
               el "c" None [capital_node]].

(** The same bank without its title field, and with an empty one. *)
Definition untitled_bank : Element :=
  el "d" None [el "c" None [capital_node]].

Definition empty_title_bank : Element :=
  el "d" None [el "p" None [el "t" None []]; el "c" None [capital_node]].

(** The same bank under a default namespace: every tag is
    [{urn:daypo}local]. *)
Fixpoint qualify (ns : string) (e : Element) : Element :=
  match e with
  | mkElement t a x cs tl =>
      mkElement ("{" +:+ ns +:+ "}" +:+ t) a x
        ((fix go (l : list Element) : list Element :=
            match l with
            | [] => []
            | c :: l' => qualify ns c :: go l'
            end) cs) tl
  end.

Definition qualified_capital_bank : Element := qualify "urn:daypo" capital_bank.

(** A bank with two questions of the same prompt, the Test it decodes to,
    and the session in which the first question has been answered
    (correctly) and the second one not yet. *)
Definition twin_bank : Element :=
  el "d" None [el "p" None [el "t" (Some "Twins") []];
               el "c" None
                 [question_node "c" "1" "Select the correct answer" ["a"; "b"] "21";
                  question_node "c" "1" "Select the correct answer" ["c"; "d"] "12"]].

Definition twin_decoded : Test :=
  {| questions :=
       [new_Question "Select the correct answer" single ["a"; "b"] [0%Z] None;
        new_Question "Select the correct answer" single ["c"; "d"] [1%Z] None];
     current_question_index := 0;
     title := "Twins" |}.

Definition twin_test : Test := (evaluate_answer twin_decoded [0%Z] None).1.

(** A progress file written when the bank was longer: the cursor is at
    the sixth question and the only entry is for a question that the bank
    no longer has. *)
Definition stale_progress : ProgressData :=
  {| pd_current_question_index := Some 5%Z;
     pd_questions :=
       Some [to_dict (new_Question "Capital of Spain?" single
                        ["Madrid"; "Lisbon"] [0%Z] None)] |}.

(** ** 3. View: the feedback for an incorrect answer *)

(** [l[i]] on a Python list: a negative index counts from the end; [None]
    is [IndexError]. *)
Definition py_index {A} (l : list A) (i : Z) : option A :=
  if decide (0 <= i)%Z then l !! Z.to_nat i
  else if decide (- Z.of_nat (length l) <= i)%Z
       then l !! Z.to_nat (Z.of_nat (length l) + i)
       else None.

(** Line 449 of [update_feedback_and_nav]:
    [[question.options[i] for i in question.correct_indices]]. *)
Definition ordered_options (q : Question) : option (list string) :=
  mapM (py_index (options q)) (correct_indices q).

(** ["\n".join(l)] *)
Definition join_lines (l : list string) : string :=
  match l with
  | [] => ""
  | x :: l' =>
      x +:+ join ((fun y => String (ascii_of_nat 10) y) <$> l')
  end.

(** Line 461 of [update_feedback_and_nav]:
    ["\n".join([f"- {question.options[i]}" for i in question.correct_indices])]. *)
Definition correct_options_text (q : Question) : option string :=
  join_lines <$>
    mapM (fun i => (fun o => "- " +:+ o) <$> py_index (options q) i)
      (correct_indices q).

(** ** More notions used in the statements *)

(** What a question is, apart from its AnswerState. *)
Definition static_part (q : Question)
    : string * QType * list string * list Z * option (list Byte.byte) :=
  (q_text q, q_type q, options q, correct_indices q, image_data q).

(** The AnswerState that [Question.__init__] and [retry_incorrect] give. *)
Definition unanswered (q : Question) : Prop :=
  answer_state q = ([], [], false, None).

(** The answered flag and the verdict agree: a verdict is stored exactly
    for an answered question. *)
Definition state_agrees (q : Question) : Prop :=
  is_answered q = true <-> is_correct q <> None.

(** The cursor points at a question. *)
Definition cursor_in_range (t : Test) : Prop :=
  (0 <= current_question_index t < Z.of_nat (length (questions t)))%Z.

(** What an image node contributes to the image table: its key and the
    decoded bytes, when it has a key, a payload with a comma, and the part
    after the first comma decodes. *)
Definition image_entry (b64decode : string -> option (list Byte.byte))
    (img_node : Element) : option (string * list Byte.byte) :=
  img_key ← attrib img_node !! "p";
  payload ← text img_node;
  if decide (img_key = "" \/ payload = "") then None
  else
    base64_data ← after_first "," (chars payload);
    image_bytes ← b64decode (str base64_data);
    Some (img_key, image_bytes).

(** The outcome of a question node that can be read off without decoding
    the answer: nothing to append, or the missing answer node. *)
Definition node_has_type_and_prompt (node : Element) : Prop :=
  (exists type_tag code, find "t" node = Some type_tag /\ text type_tag = Some code) /\
  is_Some (find "p" node).


(** Sessions used as examples below. *)
Definition three_question_test : Test :=
  test_of [capital_question; pick_two_question; abc_ordering_question].

Definition second_of_three : Test :=
  {| questions := [capital_question; pick_two_question; abc_ordering_question];
     current_question_index := 1; title := "Practice Test" |}.


(** A question node without its answer node, and a bank that holds it
    after a well-formed question. *)
Definition unanswerable_node : Element :=
  el "c" None [el "t" (Some "9") []; el "p" (Some "No answer here") []].

Definition broken_bank : Element :=
  el "d" None [el "p" None [el "t" (Some "Geography") []];
               el "c" None [capital_node; unanswerable_node]].

(** A bank whose only question has an unknown type code, and a bank
    without the question container. *)
Definition survey_bank : Element :=
  el "d" None [el "p" None [el "t" (Some "Survey") []];
               el "c" None [question_node "c" "3" "Free text" ["x"] "0"]].

Definition containerless_bank : Element :=
  el "d" None [el "p" None [el "t" (Some "Nothing") []]].


(** A progress file one of whose entries has lost its text. *)
Definition damaged_progress : ProgressData :=
  {| pd_current_question_index := Some 1%Z;
     pd_questions :=
       Some [to_dict (mkQuestion "Capital of France?" single
                        ["Paris"; "London"; "Rome"] [0%Z] None [0%Z] [0%Z] true
                        (Some true));
             {| sq_text := None; sq_user_answer_indices := Some [1%Z];
                sq_user_input := Some [1%Z]; sq_is_answered := Some true;
                sq_is_correct := Some (Some false) |}] |}.


(** A choice question whose answer string flags a position beyond its two
    options, and an ordering question whose answer string has only two
    groups for three options. *)
Definition overflagged_question : Question :=
  new_Question "Pick one" multiple ["a"; "b"] [0%Z; 2%Z] None.

Definition short_key_question : Question :=
  new_Question "Put in order" ordering ["A"; "B"; "C"] [1%Z; 0%Z] None.



Definition last_of_three : Test :=
  {| questions := [capital_question; pick_two_question; abc_ordering_question];
     current_question_index := 2; title := "Practice Test" |}.

(** An image container with a decodable image, an image without a comma
    in its payload and a second image under the first key. *)
Definition image_node (key payload : string) : Element :=
  mkElement "i" {[ "p" := key ]} (Some payload) [] None.

Definition image_bank : Element :=
  el "d" None [el "i" None [image_node "a" "data:image/png;base64,QQ==";
                            image_node "b" "no comma";
                            image_node "a" "data:image/png;base64,Qg=="]].

(** A stand-in for [base64.b64decode] on the two payloads above. *)
Definition b64_sample (s : string) : option (list Byte.byte) :=
  if decide (s = "QQ==") then Some [Byte.x41]
  else if decide (s = "Qg==") then Some [Byte.x42]
  else None.

(** ** 3. View: the buttons and the refresh

    A button keeps the state that the last refresh to reach lines 471-473
    (or lines 352-354) gave it.  A refresh that raises leaves all three
    buttons as they were: wx reports the exception of an event handler and
    goes on, and what the handler did before it (the controller's test
    included) stays done. *)

Record Buttons := mkButtons {
  submit_button : bool;
  prev_button : bool;
  next_button : bool
}.

(** The frame: the controller's test and the states of the buttons. *)
Record Frame := mkFrame {
  frame_test : Test;
  frame_buttons : Buttons
}.

(** Lines 352-354 of [update_view]. *)
Definition all_disabled : Buttons :=
  {| submit_button := false; prev_button := false; next_button := false |}.

(** Lines 412-421 of [update_view]: for an answered ordering question with
    a non-empty [user_input], [question.user_input[i]] is read for every
    option index [i] (line 416); [true] when that raises [IndexError]. *)
Definition controls_raise (question : Question) : bool :=
  bool_decide (q_type question = ordering) && is_answered question &&
  bool_decide (user_input question <> []) &&
  bool_decide (length (user_input question) < length (options question))%nat.

(** Lines 438-464 of [update_feedback_and_nav]: for an answered question
    that is not correct the correct options are looked up, at line 449
    for an ordering question and at line 461 otherwise; [true] when the
    lookup raises [IndexError]. *)
Definition feedback_raises (question : Question) : bool :=
  is_answered question && bool_decide (is_correct question <> Some true) &&
  (if decide (q_type question = ordering)
   then bool_decide (ordered_options question = None)
   else bool_decide (correct_options_text question = None)).

(** Lines 471-473 of [update_feedback_and_nav]. *)
Definition buttons_for (t : Test) (question : Question) : Buttons :=
  {| submit_button := negb (is_answered question);
     prev_button := bool_decide (current_question_index t > 0)%Z;
     next_button :=
       bool_decide (current_question_index t
                    < Z.of_nat (length (questions t)) - 1)%Z |}.

(** [update_feedback_and_nav(question)] *)
Definition update_feedback_and_nav (f : Frame) (question : Question) : Frame :=
  if feedback_raises question then f
  else {| frame_test := frame_test f;
          frame_buttons := buttons_for (frame_test f) question |}.

(** [update_view] *)
Definition update_view (f : Frame) : Frame :=
  match get_current_question (frame_test f) with
  | None => {| frame_test := frame_test f; frame_buttons := all_disabled |}
  | Some question =>
      if controls_raise question then f else update_feedback_and_nav f question
  end.

(** The frame after the controller's test became [t]. *)
Definition with_test (f : Frame) (t : Test) : Frame :=
  {| frame_test := t; frame_buttons := frame_buttons f |}.

(** [TestFrame.on_submit], lines 481-498: lines 482-496 are [on_submit]
    above, line 498 refreshes unless the handler returned at line 483 or
    490. *)
Definition frame_on_submit (f : Frame) (answer_controls : list Control) : Frame :=
  match (on_submit (frame_test f) answer_controls).2 with
  | NoQuestion => f
  | InvalidAnswer => f
  | Evaluated _ =>
      match get_current_question (on_submit (frame_test f) answer_controls).1 with
      | Some question =>
          update_feedback_and_nav
            (with_test f (on_submit (frame_test f) answer_controls).1) question
      | None => with_test f (on_submit (frame_test f) answer_controls).1
      end
  end.

(** [TestFrame.on_next] with [show_summary] and [retry_incorrect]; [retry]
    is the user's answer to the summary dialog. *)
Definition frame_on_next (f : Frame) (retry : bool) : Frame :=
  if (next_question (frame_test f)).2
  then update_view (with_test f (next_question (frame_test f)).1)
  else match incorrect_questions (frame_test f) with
       | [] => f
       | _ :: _ =>
           if retry
           then update_view
                  (with_test f (retry_incorrect (frame_test f)
                                  (incorrect_questions (frame_test f))))
           else f
       end.

(** [TestFrame.on_prev] *)
Definition frame_on_prev (f : Frame) : Frame :=
  if (previous_question (frame_test f)).2
  then update_view (with_test f (previous_question (frame_test f)).1)
  else f.

(** A click on a button of the frame: its handler runs only if the button
    is enabled.  The answer controls are not part of [Frame]: a click on
    the submit button comes with the values they hold at that moment,
    whatever they are. *)
Definition frame_click (f : Frame) (c : Click) : Frame :=
  match c with
  | ClickSubmit answer_controls =>
      if submit_button (frame_buttons f) then frame_on_submit f answer_controls
      else f
  | ClickNext retry =>
      if next_button (frame_buttons f) then frame_on_next f retry else f
  | ClickPrevious =>
      if prev_button (frame_buttons f) then frame_on_prev f else f
  end.

(** *** Notions about frames *)

(** The buttons are in the state that a completed refresh for the
    frame's test gives them. *)
Definition in_sync (f : Frame) : Prop :=
  frame_buttons f =
    match get_current_question (frame_test f) with
    | Some question => buttons_for (frame_test f) question
    | None => all_disabled
    end.

(** Every correct index of the question is an index of its options. *)
Definition well_keyed (q : Question) : Prop :=
  Forall (fun i => is_Some (py_index (options q) i)) (correct_indices q).

(** The raw input of an answered ordering question is empty or has a
    number for every option. *)
Definition raw_input_fits (q : Question) : Prop :=
  q_type q = ordering -> is_answered q = true ->
  user_input q = [] \/ (length (options q) <= length (user_input q))%nat.

(** No refresh for the question raises, whatever is answered. *)
Definition question_ok (q : Question) : Prop := well_keyed q /\ raw_input_fits q.

#[global] Instance question_ok_dec (q : Question) : Decision (question_ok q).
Proof. unfold question_ok, well_keyed, raw_input_fits. apply _. Defined.

(** The frame is in sync and none of its questions makes a refresh raise. *)
Definition frame_ok (f : Frame) : Prop :=
  in_sync f /\ Forall question_ok (questions (frame_test f)).

(** The frame after a completed refresh for the test [t]. *)
Definition synced_frame (t : Test) : Frame :=
  {| frame_test := t;
     frame_buttons :=
       match get_current_question t with
       | Some question => buttons_for t question
       | None => all_disabled
       end |}.

(** A bank whose second question has the marker beyond its two options,
    and the Test it decodes to. *)
Definition overflagged_bank : Element :=
  el "d" None [el "p" None [el "t" (Some "Geography") []];
               el "c" None [capital_node;
                            question_node "c" "1" "Pick one" ["a"; "b"] "212"]].

Definition overflagged_test : Test :=
  {| questions := [capital_question; overflagged_question];
     current_question_index := 0; title := "Geography" |}.

(** The clicks of a user who goes to the second question, answers it,
    goes back and forth, and clicks on Next once more, saying yes to the
    retry. *)
Definition stale_trace : list Click :=
  [ClickNext true; ClickSubmit [Toggle true; Toggle false]; ClickPrevious;
   ClickNext true; ClickNext true].

(** The same clicks after the first question was answered correctly. *)
Definition stale_trace_after_correct : list Click :=
  ClickSubmit [Toggle true; Toggle false; Toggle false] :: stale_trace.

(** * Properties *)

(** ** Sorting *)

Section Sorting.
Context {A : Type} (le : A -> A -> bool).

Lemma insert_sorted_Permutation (x : A) (l : list A) :
  insert_sorted le x l ≡ₚ x :: l.
Proof.
  induction l as [|y l IH]; simpl; [done|].
  destruct (le x y); [done|].
  rewrite IH. apply Permutation_swap.
Qed.

Lemma py_sorted_Permutation (l : list A) : py_sorted le l ≡ₚ l.
Proof.
  induction l as [|x l IH]; simpl; [done|].
  by rewrite insert_sorted_Permutation, IH.
Qed.

Hypothesis le_total : forall a b, le a b = true \/ le b a = true.
Hypothesis le_trans : forall a b c, le a b = true -> le b c = true -> le a c = true.

Lemma insert_sorted_StronglySorted (x : A) (l : list A) :
  StronglySorted (fun a b => le a b = true) l ->
  StronglySorted (fun a b => le a b = true) (insert_sorted le x l).
Proof.
  induction 1 as [|y l Hl IH Hy]; simpl.
  - repeat constructor.
  - destruct (le x y) eqn:Hxy.
    + constructor; [by constructor|].
      constructor; [done|].
      eapply Forall_impl; [exact Hy|]. intros z Hz. by eapply le_trans.
    + constructor; [done|].
      rewrite insert_sorted_Permutation. constructor; [|done].
      destruct (le_total x y); congruence.
Qed.

Lemma py_sorted_StronglySorted (l : list A) :
  StronglySorted (fun a b => le a b = true) (py_sorted le l).
Proof.
  induction l as [|x l IH]; simpl; [constructor|].
  by apply insert_sorted_StronglySorted.
Qed.

End Sorting.

(** Sorting by a key is stable: the elements with a given key come out in
    the order they went in. *)
Lemma insert_sorted_stable {A} (key : A -> Z) (k : Z) (x : A) (l : list A) :
  filter (fun a => key a = k) (insert_sorted (fun a b => (key a <=? key b)%Z) x l)
  = filter (fun a => key a = k) (x :: l).
Proof.
  induction l as [|y l IH]; [done|]. simpl.
  destruct (key x <=? key y)%Z eqn:Hle; [done|].
  apply Z.leb_gt in Hle.
  rewrite (filter_cons _ y), IH, !(filter_cons _ x), (filter_cons _ y).
  repeat case_decide; try done; lia.
Qed.

Lemma py_sorted_stable {A} (key : A -> Z) (k : Z) (l : list A) :
  filter (fun a => key a = k) (py_sorted (fun a b => (key a <=? key b)%Z) l)
  = filter (fun a => key a = k) l.
Proof.
  induction l as [|x l IH]; [done|]. simpl.
  rewrite insert_sorted_stable, !(filter_cons _ x), IH. done.
Qed.

Lemma py_sorted_Z_unique (l1 l2 : list Z) :
  py_sorted Z.leb l1 = py_sorted Z.leb l2 <-> l1 ≡ₚ l2.
Proof.
  split.
  - intros H. rewrite <- (py_sorted_Permutation Z.leb l1), H.
    apply py_sorted_Permutation.
  - intros H.
    apply (StronglySorted_unique_strong (fun a b : Z => (a <=? b)%Z = true)).
    + intros x y _ _ ?%Z.leb_le ?%Z.leb_le. lia.
    + apply py_sorted_StronglySorted; intros; lia.
    + apply py_sorted_StronglySorted; intros; lia.
    + by rewrite !py_sorted_Permutation.
Qed.

(** Duplicate-free lists with the same elements are permutations. *)
Lemma NoDup_set_eq_Permutation (l1 l2 : list Z) :
  NoDup l1 -> NoDup l2 -> (l1 ≡ₚ l2 <-> forall i, i ∈ l1 <-> i ∈ l2).
Proof.
  intros H1 H2. split.
  - intros Hp i. by rewrite Hp.
  - intros H. by apply NoDup_Permutation.
Qed.

(** ** The current question after an evaluation *)

Lemma get_current_question_Some (t : Test) (q : Question) :
  get_current_question t = Some q ->
  (0 <= current_question_index t < Z.of_nat (length (questions t)))%Z /\
  questions t !! Z.to_nat (current_question_index t) = Some q.
Proof. unfold get_current_question. case_decide; [done|discriminate]. Qed.

Lemma evaluate_answer_current (t : Test) (q : Question) (user_answer : list Z)
    (raw : option (list Z)) :
  get_current_question t = Some q ->
  let verdict :=
    if decide (q_type q = ordering)
    then bool_decide (user_answer = correct_indices q)
    else bool_decide (py_sorted Z.leb user_answer = py_sorted Z.leb (correct_indices q)) in
  (evaluate_answer t user_answer raw).2 = Some verdict /\
  get_current_question (evaluate_answer t user_answer raw).1 =
    Some {| q_text := q_text q; q_type := q_type q; options := options q;
            correct_indices := correct_indices q; image_data := image_data q;
            user_answer_indices := user_answer;
            user_input := default user_answer raw;
            is_answered := true; is_correct := Some verdict |}.
Proof.
  intros Hq. pose proof (get_current_question_Some _ _ Hq) as [Hr Hl].
  unfold evaluate_answer. rewrite Hq. simpl. split; [done|].
  unfold get_current_question. simpl. rewrite length_insert.
  rewrite decide_True by done.
  apply list_lookup_insert_eq. lia.
Qed.

(** ** Enumerations *)

Lemma elem_of_enumerate {A} (l : list A) (i : Z) (x : A) :
  (i, x) ∈ enumerate l <-> (0 <= i)%Z /\ l !! Z.to_nat i = Some x.
Proof.
  unfold enumerate. rewrite list_elem_of_lookup. split.
  - intros [n Hn]. apply lookup_zip_with_Some in Hn as (a & b & Heq & Ha & Hb).
    injection Heq as -> ->. apply lookup_seqZ in Ha as [-> _].
    split; [lia|]. by rewrite Z.add_0_l, Nat2Z.id.
  - intros [Hi Hx]. exists (Z.to_nat i).
    apply lookup_zip_with_Some. exists i, x. split; [done|]. split; [|done].
    apply lookup_seqZ. apply lookup_lt_Some in Hx. lia.
Qed.

Lemma enumerate_fst {A} (l : list A) :
  (enumerate l).*1 = seqZ 0 (Z.of_nat (length l)).
Proof. unfold enumerate. apply fst_zip. rewrite length_seqZ. lia. Qed.

(** ** Evaluation of Single and Multiple questions *)

(** The index lists the code itself builds for choice questions have no
    repeated index: the correct indices of the decoder and the selected
    indices of [on_submit] are both filtered enumerations. *)
Lemma filter_enumerate_NoDup {A} (P : Z * A -> Prop) `{!forall x, Decision (P x)}
    (l : list A) :
  NoDup (filter P (enumerate l)).*1.
Proof.
  apply (sublist_NoDup _ (enumerate l).*1).
  - unfold enumerate. rewrite fst_zip by (rewrite length_seqZ; lia).
    apply NoDup_seqZ.
  - apply (fmap_sublist fst), sublist_filter.
Qed.

Lemma choice_correct_indices_NoDup (answer_code : string) :
  NoDup (choice_correct_indices answer_code).
Proof. apply filter_enumerate_NoDup. Qed.

Lemma choice_user_indices_NoDup (controls : list Control) :
  NoDup (choice_user_indices controls).
Proof. apply filter_enumerate_NoDup. Qed.

Lemma elem_of_choice_user_indices (controls : list Control) (i : Z) :
  i ∈ choice_user_indices controls <-> is_selected controls i.
Proof.
  unfold choice_user_indices, is_selected. rewrite list_elem_of_fmap. split.
  - intros ([j c] & -> & Hin). apply list_elem_of_filter in Hin as [Hc Hin].
    apply elem_of_enumerate in Hin as [Hj Hin]. simpl in *. eauto.
  - intros (Hi & c & Hc & Hv). exists (i, c). split; [done|].
    apply list_elem_of_filter. split; [done|]. by apply elem_of_enumerate.
Qed.

(** C3: for a Single or Multiple question, a submission and any
    permutation of it get the same verdict, which is also the one stored in
    the question.  The verdict is positive exactly when the submitted
    indices are a rearrangement of the correct indices; for index sets
    (lists without repetition, the only ones the decoder and the view
    build) that is set equality.  In particular a submission through
    [on_submit] is correct exactly when the marked options are the correct
    ones. *)
Theorem choice_evaluation_order_insensitive (t : Test) (q : Question)
    (submitted permuted : list Z) (raw raw' : option (list Z)) :
  get_current_question t = Some q ->
  q_type q <> ordering ->
  submitted ≡ₚ permuted ->
  exists verdict : bool,
    (evaluate_answer t submitted raw).2 = Some verdict /\
    (evaluate_answer t permuted raw').2 = Some verdict /\
    is_correct <$> get_current_question (evaluate_answer t submitted raw).1
      = Some (Some verdict) /\
    is_correct <$> get_current_question (evaluate_answer t permuted raw').1
      = Some (Some verdict) /\
    (verdict = true <-> submitted ≡ₚ correct_indices q) /\
    (NoDup submitted -> NoDup (correct_indices q) ->
     (verdict = true <-> forall i, i ∈ submitted <-> i ∈ correct_indices q)) /\
    (NoDup (correct_indices q) ->
     forall controls : list Control,
     exists v : bool,
       (on_submit t controls).2 = Evaluated v /\
       (v = true <->
        forall i, is_selected controls i <-> i ∈ correct_indices q)).
Proof.
  intros Hq Hty Hperm.
  destruct (evaluate_answer_current t q submitted raw Hq) as [Hv1 Hc1].
  destruct (evaluate_answer_current t q permuted raw' Hq) as [Hv2 Hc2].
  rewrite decide_False in Hv1, Hc1, Hv2, Hc2 by done.
  assert (py_sorted Z.leb permuted = py_sorted Z.leb submitted) as Hs
    by (by apply py_sorted_Z_unique).
  rewrite Hs in Hv2, Hc2.
  eexists. split; [exact Hv1|]. split; [exact Hv2|].
  rewrite Hc1, Hc2. simpl. split; [done|]. split; [done|].
  rewrite bool_decide_eq_true, py_sorted_Z_unique. split; [done|].
  split; [intros; by apply NoDup_set_eq_Permutation|].
  intros Hnd controls. unfold on_submit. rewrite Hq, decide_False by done.
  destruct (evaluate_answer_current t q (choice_user_indices controls) None Hq)
    as [Hv _].
  rewrite decide_False in Hv by done. rewrite Hv. simpl.
  eexists. split; [done|].
  rewrite bool_decide_eq_true, py_sorted_Z_unique.
  rewrite (NoDup_set_eq_Permutation _ _ (choice_user_indices_NoDup controls) Hnd).
  by setoid_rewrite elem_of_choice_user_indices.
Qed.

Lemma choice_evaluation_order_insensitive_witness :
  exists verdict : bool,
    (evaluate_answer (test_of [pick_two_question]) [2; 0]%Z None).2 = Some verdict /\
    (evaluate_answer (test_of [pick_two_question]) [0; 2]%Z None).2 = Some verdict /\
    verdict = true.
Proof.
  destruct (choice_evaluation_order_insensitive (test_of [pick_two_question])
              pick_two_question [2; 0]%Z [0; 2]%Z None None)
    as (v & H1 & H2 & _ & _ & Hv & _ & _).
  - reflexivity.
  - discriminate.
  - apply Permutation_swap.
  - exists v. split; [exact H1|]. split; [exact H2|].
    apply Hv. apply Permutation_swap.
Defined.

(** Marking Paris is correct, marking London is not. *)
Example capital_marking :
  (on_submit (test_of [capital_question])
     [Toggle true; Toggle false; Toggle false]).2 = Evaluated true /\
  (on_submit (test_of [capital_question])
     [Toggle false; Toggle true; Toggle false]).2 = Evaluated false.
Proof. split; reflexivity. Qed.

(** ** Evaluation of Ordering questions *)

(** C4: for an Ordering question the verdict is positive exactly when the
    submitted sequence equals the correct permutation; a submission with
    the right indices in another sequence is incorrect. *)
Theorem ordering_evaluation_exact (t : Test) (q : Question)
    (submitted : list Z) (raw : option (list Z)) :
  get_current_question t = Some q ->
  q_type q = ordering ->
  exists verdict : bool,
    (evaluate_answer t submitted raw).2 = Some verdict /\
    is_correct <$> get_current_question (evaluate_answer t submitted raw).1
      = Some (Some verdict) /\
    (verdict = true <-> submitted = correct_indices q) /\
    (submitted ≡ₚ correct_indices q -> submitted <> correct_indices q ->
     verdict = false).
Proof.
  intros Hq Hty.
  destruct (evaluate_answer_current t q submitted raw Hq) as [Hv Hc].
  rewrite decide_True in Hv, Hc by done.
  eexists. split; [exact Hv|]. rewrite Hc. simpl. split; [done|].
  rewrite bool_decide_eq_true. split; [done|].
  intros _ Hne. by apply bool_decide_eq_false.
Qed.

Lemma ordering_evaluation_exact_witness :
  (evaluate_answer (test_of [abc_ordering_question]) [0; 1; 2]%Z None).2
    = Some false /\
  (evaluate_answer (test_of [abc_ordering_question]) [1; 0; 2]%Z None).2
    = Some true.
Proof.
  split.
  - destruct (ordering_evaluation_exact (test_of [abc_ordering_question])
                abc_ordering_question [0; 1; 2]%Z None eq_refl eq_refl)
      as (v & Hv & _ & _ & Hfalse).
    rewrite Hv. f_equal. apply Hfalse.
    + apply Permutation_swap.
    + discriminate.
  - destruct (ordering_evaluation_exact (test_of [abc_ordering_question])
                abc_ordering_question [1; 0; 2]%Z None eq_refl eq_refl)
      as (v & Hv & _ & Htrue & _).
    rewrite Hv. f_equal. by apply Htrue.
Defined.

(** ** Rankings *)

Lemma StronglySorted_fmap_elem {A B} (f : A -> B) (R1 : relation A)
    (R2 : relation B) (l : list A) :
  (forall x y, x ∈ l -> y ∈ l -> R1 x y -> R2 (f x) (f y)) ->
  StronglySorted R1 l -> StronglySorted R2 (f <$> l).
Proof.
  intros HR Hl. induction Hl as [|x l Hl IH Hx]; csimpl; constructor.
  - apply IH. intros y z Hy Hz. apply HR; by right.
  - rewrite Forall_fmap. rewrite Forall_forall in Hx |- *.
    intros y Hy. apply HR; [by left|by right|by apply Hx].
Qed.

Lemma ordering_user_indices_Permutation (values : list Z) :
  ordering_user_indices values ≡ₚ seqZ 0 (Z.of_nat (length values)).
Proof.
  unfold ordering_user_indices.
  by rewrite py_sorted_Permutation, enumerate_fst.
Qed.

Lemma ordering_user_indices_sorted (values : list Z) :
  StronglySorted (fun i j => (value_at values i <= value_at values j)%Z)
    (ordering_user_indices values).
Proof.
  unfold ordering_user_indices.
  apply (StronglySorted_fmap_elem fst (fun a b => (a.2 <=? b.2)%Z = true)).
  - intros [i v] [j w] Hi Hj Hle.
    rewrite py_sorted_Permutation in Hi, Hj.
    apply elem_of_enumerate in Hi as [_ Hi], Hj as [_ Hj].
    unfold value_at. simpl in *. rewrite Hi, Hj. simpl. lia.
  - apply py_sorted_StronglySorted; intros; lia.
Qed.

Lemma distinct_count_NoDup (values : list Z) :
  distinct_count values = length values <-> NoDup values.
Proof.
  unfold distinct_count. split.
  - induction values as [|x l IH]; simpl; [constructor|].
    assert (length (remove_dups l) <= length l)%nat as Hle.
    { clear. induction l as [|y l IH]; simpl; [lia|].
      destruct (decide_rel _ _ _); simpl; lia. }
    destruct (decide_rel _ _ _); simpl; [lia|].
    intros Hlen. constructor; [done|]. apply IH. lia.
  - induction 1 as [|x l Hx Hl IH]; simpl; [done|].
    destruct (decide_rel _ _ _); [done|]. simpl. by rewrite IH.
Qed.

(** ** Submission of an Ordering answer *)

Lemma on_submit_ordering (t : Test) (q : Question) (controls : list Control) :
  get_current_question t = Some q ->
  q_type q = ordering ->
  length controls = length (options q) ->
  on_submit t controls =
    if decide (NoDup (GetValue <$> controls))
    then ((evaluate_answer t (ordering_user_indices (GetValue <$> controls))
             (Some (GetValue <$> controls))).1,
          Evaluated (bool_decide (ordering_user_indices (GetValue <$> controls)
                                  = correct_indices q)))
    else (t, InvalidAnswer).
Proof.
  intros Hq Hty Hlen. unfold on_submit. rewrite Hq.
  rewrite decide_True by done.
  assert (distinct_count (GetValue <$> controls) = length (options q)
          <-> NoDup (GetValue <$> controls)) as Hd.
  { rewrite <- Hlen, <- (length_fmap GetValue controls).
    apply distinct_count_NoDup. }
  destruct (decide (NoDup (GetValue <$> controls))) as [Hn|Hn].
  - rewrite decide_False by (intros H; apply H, Hd, Hn).
    destruct (evaluate_answer_current t q
                (ordering_user_indices (GetValue <$> controls))
                (Some (GetValue <$> controls)) Hq) as [Hv _].
    rewrite decide_True in Hv by done. by rewrite Hv.
  - rewrite decide_True; [done|]. intros H. by apply Hn, Hd.
Qed.

(** C8: for an Ordering question shown with one number control per option,
    a submission whose numbers are not pairwise distinct is rejected
    ([InvalidAnswer]) and leaves the test as it was; a submission with
    pairwise distinct numbers is evaluated: the question becomes answered,
    keeps the numbers as raw input and the option indices ranked by their
    numbers as answer, and is correct exactly when that ranking is the
    correct permutation.  A rejected submission does not change what a
    later valid submission does. *)
Theorem ordering_duplicate_ranks_rejected (t : Test) (q : Question)
    (controls : list Control) :
  get_current_question t = Some q ->
  q_type q = ordering ->
  length controls = length (options q) ->
  (~ NoDup (GetValue <$> controls) -> on_submit t controls = (t, InvalidAnswer)) /\
  (NoDup (GetValue <$> controls) ->
   exists verdict : bool,
     (on_submit t controls).2 = Evaluated verdict /\
     (verdict = true <->
      ordering_user_indices (GetValue <$> controls) = correct_indices q) /\
     ordering_user_indices (GetValue <$> controls)
       ≡ₚ seqZ 0 (Z.of_nat (length controls)) /\
     StronglySorted (fun i j => (value_at (GetValue <$> controls) i
                                 <= value_at (GetValue <$> controls) j)%Z)
       (ordering_user_indices (GetValue <$> controls)) /\
     get_current_question (on_submit t controls).1 =
       Some {| q_text := q_text q; q_type := q_type q; options := options q;
               correct_indices := correct_indices q; image_data := image_data q;
               user_answer_indices := ordering_user_indices (GetValue <$> controls);
               user_input := GetValue <$> controls;
               is_answered := true; is_correct := Some verdict |}) /\
  (forall rejected : list Control,
     length rejected = length (options q) ->
     ~ NoDup (GetValue <$> rejected) ->
     on_submit (on_submit t rejected).1 controls = on_submit t controls).
Proof.
  intros Hq Hty Hlen. split; [|split].
  - intros Hn. rewrite (on_submit_ordering t q) by done.
    by rewrite decide_False.
  - intros Hn. rewrite (on_submit_ordering t q) by done.
    rewrite decide_True by done. simpl.
    eexists. split; [done|]. split; [apply bool_decide_eq_true|].
    split.
    { rewrite ordering_user_indices_Permutation. by rewrite length_fmap. }
    split; [apply ordering_user_indices_sorted|].
    destruct (evaluate_answer_current t q
                (ordering_user_indices (GetValue <$> controls))
                (Some (GetValue <$> controls)) Hq) as [_ Hc].
    rewrite decide_True in Hc by done. exact Hc.
  - intros rejected Hl Hn.
    rewrite (on_submit_ordering t q rejected) by done.
    by rewrite decide_False.
Qed.

Lemma ordering_duplicate_ranks_rejected_witness :
  on_submit (test_of [abc_ordering_question]) [SpinCtrl 2; SpinCtrl 2; SpinCtrl 3]
    = (test_of [abc_ordering_question], InvalidAnswer) /\
  on_submit
    (on_submit (test_of [abc_ordering_question])
       [SpinCtrl 2; SpinCtrl 2; SpinCtrl 3]).1
    [SpinCtrl 2; SpinCtrl 1; SpinCtrl 3]
    = on_submit (test_of [abc_ordering_question])
        [SpinCtrl 2; SpinCtrl 1; SpinCtrl 3] /\
  (on_submit (test_of [abc_ordering_question])
     [SpinCtrl 2; SpinCtrl 1; SpinCtrl 3]).2 = Evaluated true.
Proof.
  pose proof (ordering_duplicate_ranks_rejected (test_of [abc_ordering_question])
                abc_ordering_question [SpinCtrl 2; SpinCtrl 1; SpinCtrl 3]
                eq_refl eq_refl eq_refl) as (_ & Hvalid & Hafter).
  pose proof (ordering_duplicate_ranks_rejected (test_of [abc_ordering_question])
                abc_ordering_question [SpinCtrl 2; SpinCtrl 2; SpinCtrl 3]
                eq_refl eq_refl eq_refl) as (Hrejected & _ & _).
  assert (~ NoDup (GetValue <$> [SpinCtrl 2; SpinCtrl 2; SpinCtrl 3])) as Hdup.
  { intros H. inversion H as [|? ? Hin _]. apply Hin. left. }
  split; [exact (Hrejected Hdup)|].
  split; [exact (Hafter [SpinCtrl 2; SpinCtrl 2; SpinCtrl 3] eq_refl Hdup)|].
  destruct Hvalid as (v & Hv & Htrue & _).
  { by apply (bool_decide_unpack _). }
  rewrite Hv. f_equal. by apply Htrue.
Defined.

(** ** Saving and resuming progress *)

Lemma from_dict_to_dict (q s : Question) :
  from_dict q (to_dict s) =
    {| q_text := q_text q; q_type := q_type q; options := options q;
       correct_indices := correct_indices q; image_data := image_data q;
       user_answer_indices := user_answer_indices s;
       user_input := user_input s; is_answered := is_answered s;
       is_correct := is_correct s |}.
Proof. reflexivity. Qed.

(** The dictionary of line 183 built from saved questions holds, under
    each text, the last saved question with that text. *)
Lemma saved_questions_fold (saved : list Question)
    (m0 : gmap string SavedQuestion) :
  exists m : gmap string SavedQuestion,
    foldl (fun acc q => m ← acc; t ← sq_text q; Some (<[t := q]> m)) (Some m0)
      (to_dict <$> saved) = Some m /\
    forall x, m !! x = match last_with_text x saved with
                       | Some s => Some (to_dict s)
                       | None => m0 !! x
                       end.
Proof.
  revert m0. induction saved as [|s saved IH]; intros m0.
  - exists m0. split; [done|]. intros x. done.
  - destruct (IH (<[q_text s := to_dict s]> m0)) as (m & Hm & Hlook).
    exists m. split; [exact Hm|].
    intros x. rewrite Hlook. unfold last_with_text.
    destruct (decide (q_text s = x)) as [Heq|Hne].
    + rewrite (filter_cons_True _ s saved) by done. rewrite last_cons.
      destruct (last _); [done|]. subst x. apply lookup_insert_eq.
    + rewrite (filter_cons_False _ s saved) by done.
      destruct (last _); [done|]. by apply lookup_insert_ne.
Qed.

(** Saving [saved] and resuming onto [live], in closed form. *)
Lemma restore_progress_saved (live saved : Test) :
  restore_progress live (progress_data saved) =
    Some {| questions :=
              (fun q => match last_with_text (q_text q) (questions saved) with
                        | Some s => from_dict q (to_dict s)
                        | None => q
                        end) <$> questions live;
            current_question_index := current_question_index saved;
            title := title live |}.
Proof.
  unfold restore_progress, progress_data, saved_questions_map. simpl.
  destruct (saved_questions_fold (questions saved) ∅) as (m & -> & Hlook).
  simpl. do 2 f_equal. apply list_fmap_ext. intros _ q _.
  rewrite Hlook, lookup_empty. by destruct (last_with_text _ _).
Qed.

Lemma filter_text_nil (saved : list Question) (x : string) :
  (forall s, s ∈ saved -> q_text s <> x) ->
  filter (fun s => q_text s = x) saved = [].
Proof.
  induction saved as [|s saved IH]; intros H; [done|].
  rewrite filter_cons_False by (apply H; left).
  apply IH. intros s' Hs'. apply H. by right.
Qed.

Lemma last_with_text_unique (saved : list Question) (s : Question) :
  NoDup (q_text <$> saved) -> s ∈ saved ->
  last_with_text (q_text s) saved = Some s.
Proof.
  unfold last_with_text.
  induction saved as [|s' saved IH]; intros Hnd Hin; [by inv Hin|].
  csimpl in Hnd. apply NoDup_cons in Hnd as [Hs' Hnd].
  apply elem_of_cons in Hin as [->|Hin].
  - rewrite filter_cons_True by done.
    rewrite filter_text_nil; [done|].
    intros y Hy Heq. apply Hs'. rewrite <- Heq. by apply list_elem_of_fmap_2.
  - rewrite filter_cons_False; [by apply IH|].
    intros Heq. apply Hs'. rewrite Heq. by apply list_elem_of_fmap_2.
Qed.

Lemma last_with_text_None (saved : list Question) (x : string) :
  (forall s, s ∈ saved -> q_text s <> x) -> last_with_text x saved = None.
Proof.
  intros H. unfold last_with_text. by rewrite filter_text_nil.
Qed.

Lemma last_with_text_Some (saved : list Question) (x : string) (s : Question) :
  last_with_text x saved = Some s -> s ∈ saved /\ q_text s = x.
Proof.
  unfold last_with_text. intros H%last_Some_elem_of.
  apply list_elem_of_filter in H. tauto.
Qed.

(** C5, at a bank with two questions of the same text: after save and
    resume onto the freshly decoded bank, the first question, answered
    before the save, is unanswered.  The round trip as stated for any Test
    does not hold. *)
Lemma resume_duplicate_text_counterexample :
  ~ (forall saved : Test,
       exists resumed : Test,
         restore_progress (fresh_test saved) (progress_data saved) = Some resumed /\
         forall (i : nat) (q q' : Question),
           questions saved !! i = Some q ->
           questions resumed !! i = Some q' ->
           answer_state q' = answer_state q).
Proof.
  intros H. destruct (H twin_test) as (resumed & Hr & Hall).
  rewrite restore_progress_saved in Hr. injection Hr as <-.
  specialize (Hall 0%nat _ _ eq_refl eq_refl).
  vm_compute in Hall. discriminate.
Qed.

(** The same through the loader: the bank decodes to [twin_decoded], and
    loading it again with the progress saved from [twin_test] gives back
    both questions unanswered. *)
Example twin_bank_resumed (b64decode : string -> option (list Byte.byte)) :
  decode b64decode twin_bank = Ok (inr twin_decoded) /\
  is_answered <$> questions twin_test = [true; false] /\
  load_new_test_from_file b64decode new_Test (Parsed twin_bank)
    (ProgressFile true (Some (progress_data twin_test)))
    = Ok (twin_decoded, true).
Proof. repeat split; by vm_compute. Qed.

(** C5, amended: saving [saved] and resuming onto [live] (any Test, in
    particular a freshly decoded instance of the bank) succeeds and keeps
    the live questions, their number and order: a snapshot entry that
    matches no live question is dropped.  A live question whose text
    occurs in the snapshot takes the AnswerState of the last saved
    question with that text; when the saved texts are pairwise distinct
    that is the AnswerState of the saved question with its text, and then
    resuming onto the freshly decoded bank gives back the saved Test.  A
    live question whose text is not in the snapshot is left as it is. *)
Theorem resume_by_text (saved live : Test) :
  exists resumed : Test,
    restore_progress live (progress_data saved) = Some resumed /\
    length (questions resumed) = length (questions live) /\
    (forall (i : nat) (q : Question),
       questions live !! i = Some q ->
       exists q' : Question,
         questions resumed !! i = Some q' /\
         q_text q' = q_text q /\ q_type q' = q_type q /\
         options q' = options q /\ correct_indices q' = correct_indices q /\
         image_data q' = image_data q /\
         (forall s, last_with_text (q_text q) (questions saved) = Some s ->
                    answer_state q' = answer_state s) /\
         (NoDup (q_text <$> questions saved) ->
          forall s, s ∈ questions saved -> q_text s = q_text q ->
                    answer_state q' = answer_state s) /\
         ((forall s, s ∈ questions saved -> q_text s <> q_text q) -> q' = q)) /\
    (NoDup (q_text <$> questions saved) ->
     live = fresh_test saved ->
     resumed = saved).
Proof.
  eexists. split; [apply restore_progress_saved|]. simpl.
  split; [apply length_fmap|]. split.
  - intros i q Hq. rewrite list_lookup_fmap, Hq. simpl.
    eexists. split; [done|].
    destruct (last_with_text (q_text q) (questions saved)) as [s0|] eqn:Hlast.
    + rewrite from_dict_to_dict. simpl. repeat (split; [done|]).
      split; [by intros s [= <-]|]. split.
      * intros Hnd s Hs Htext.
        rewrite <- Htext, (last_with_text_unique _ s Hnd Hs) in Hlast.
        by injection Hlast as <-.
      * intros Hno. apply last_with_text_Some in Hlast as [Hin Htext].
        by destruct (Hno s0 Hin).
    + repeat (split; [done|]). split; [|done].
      intros Hnd s Hs Htext.
      rewrite <- Htext, (last_with_text_unique _ s Hnd Hs) in Hlast. done.
  - intros Hnd ->. destruct saved as [qs cursor ttl]. simpl in *. f_equal.
    rewrite <- list_fmap_compose. rewrite <- (list_fmap_id qs) at 2.
    apply list_fmap_ext. intros _ s Hs%list_elem_of_lookup_2. simpl.
    change (q_text (reset_answer s)) with (q_text s).
    rewrite (last_with_text_unique qs s Hnd Hs). by destruct s.
Qed.

Lemma resume_by_text_witness :
  restore_progress (fresh_test answered_capital_test)
    (progress_data answered_capital_test) = Some answered_capital_test.
Proof.
  destruct (resume_by_text answered_capital_test (fresh_test answered_capital_test))
    as (resumed & Hr & _ & _ & Hround).
  rewrite Hr. f_equal. apply Hround.
  - by apply (bool_decide_unpack _).
  - reflexivity.
Defined.

(** C10: resuming restores the persisted cursor as it is (0 when the file
    has none) and leaves the number of questions alone, so a cursor saved
    for a longer bank ends up out of range; [get_current_question] answers
    [None] for every cursor outside [0, len(questions)-1].  Loading the
    one-question bank with a progress file saved at index 5 succeeds with
    cursor 5 and no current question. *)
Theorem resume_cursor_unchecked (b64decode : string -> option (list Byte.byte)) :
  (forall (live : Test) (pd : ProgressData) (resumed : Test),
     restore_progress live pd = Some resumed ->
     check_and_load_progress live (ProgressFile true (Some pd)) = resumed /\
     current_question_index resumed = default 0%Z (pd_current_question_index pd) /\
     length (questions resumed) = length (questions live)) /\
  (forall t : Test,
     ~ (0 <= current_question_index t < Z.of_nat (length (questions t)))%Z ->
     get_current_question t = None) /\
  (exists resumed : Test,
     load_new_test_from_file b64decode new_Test (Parsed capital_bank)
       (ProgressFile true (Some stale_progress)) = Ok (resumed, true) /\
     current_question_index resumed = 5%Z /\
     length (questions resumed) = 1%nat /\
     get_current_question resumed = None).
Proof.
  split; [|split].
  - intros live pd resumed Hr. simpl. rewrite Hr. simpl. split; [done|].
    unfold restore_progress in Hr.
    destruct (pd_questions pd) as [saved|]; [|done]. simpl in Hr.
    destruct (saved_questions_map saved) as [m|]; [|done]. simpl in Hr.
    injection Hr as <-. simpl. split; [done|]. apply length_fmap.
  - intros t Hout. unfold get_current_question. by rewrite decide_False.
  - eexists. split; [by vm_compute|]. done.
Qed.

Lemma resume_cursor_unchecked_witness :
  get_current_question
    (check_and_load_progress (test_of [capital_question])
       (ProgressFile true (Some stale_progress))) = None.
Proof.
  destruct (resume_cursor_unchecked (fun _ => None)) as (Hresume & Hnone & _).
  destruct (Hresume (test_of [capital_question]) stale_progress
              {| questions := [capital_question]; current_question_index := 5;
                 title := "Practice Test" |} eq_refl) as (-> & _ & _).
  apply Hnone. simpl. lia.
Defined.

(** ** Submitting again *)

(** C7, at a session whose current question is answered (correctly, with
    option 0): [on_submit] with option 1 marked, and [evaluate_answer] with
    [[1]], evaluate again and replace the stored answer.  Neither has a
    check of [is_answered]. *)
Lemma resubmission_counterexample :
  ~ (forall (t : Test) (q : Question) (controls : list Control),
       get_current_question t = Some q -> is_answered q = true ->
       (on_submit t controls).1 = t) /\
  ~ (forall (t : Test) (q : Question) (user_answer : list Z),
       get_current_question t = Some q -> is_answered q = true ->
       (evaluate_answer t user_answer None).1 = t).
Proof.
  split; intros H.
  - specialize (H answered_capital_test _ [Toggle false; Toggle true; Toggle false]
                  eq_refl eq_refl).
    vm_compute in H. discriminate.
  - specialize (H answered_capital_test _ [1%Z] eq_refl eq_refl).
    vm_compute in H. discriminate.
Qed.

Lemma evaluate_answer_questions (t : Test) (user_answer : list Z)
    (raw : option (list Z)) :
  (evaluate_answer t user_answer raw).1 = t \/
  exists q', questions (evaluate_answer t user_answer raw).1
             = <[Z.to_nat (current_question_index t) := q']> (questions t).
Proof.
  unfold evaluate_answer. destruct (get_current_question t); [|by left].
  right. by eexists.
Qed.

Lemma on_submit_questions (t : Test) (controls : list Control) :
  (on_submit t controls).1 = t \/
  exists q', questions (on_submit t controls).1
             = <[Z.to_nat (current_question_index t) := q']> (questions t).
Proof.
  unfold on_submit. destruct (get_current_question t); [|by left].
  repeat case_decide; simpl; [by left|..]; apply evaluate_answer_questions.
Qed.

(** ** The decoder: which questions are appended *)

Lemma decode_questions_elem (images : gmap string (list Byte.byte))
    (nodes : list Element) (qs : list Question) :
  decode_questions images nodes = Ok qs ->
  forall q, q ∈ qs <->
    exists node, node ∈ nodes /\ decode_question_node images node = Ok (Some q).
Proof.
  revert qs. induction nodes as [|node nodes IH]; simpl; intros qs Hqs q.
  - injection Hqs as <-. split; [by intros ?%elem_of_nil|].
    by intros (? & ?%elem_of_nil & _).
  - destruct (decode_question_node images node) as [r|] eqn:Hnode; [|done].
    simpl in Hqs.
    destruct (decode_questions images nodes) as [qs'|]; [|done].
    simpl in Hqs. injection Hqs as <-. specialize (IH qs' eq_refl q).
    split.
    + intros Hin. destruct r as [q0|].
      * apply elem_of_cons in Hin as [->|Hin].
        -- exists node. split; [left|done].
        -- apply IH in Hin as (n & Hn & Hd). exists n. split; [by right|done].
      * apply IH in Hin as (n & Hn & Hd). exists n. split; [by right|done].
    + intros (n & Hn & Hd). apply elem_of_cons in Hn as [->|Hn].
      * rewrite Hnode in Hd. injection Hd as ->. left.
      * assert (q ∈ qs') by (apply IH; eauto). destruct r; [by right|done].
Qed.

Lemma decode_question_node_nonempty (images : gmap string (list Byte.byte))
    (node : Element) (q : Question) :
  decode_question_node images node = Ok (Some q) ->
  options q <> [] /\ correct_indices q <> [].
Proof.
  unfold decode_question_node. intros H.
  repeat match type of H with
         | match ?x with _ => _ end = _ => destruct x; try discriminate
         | bind ?x _ = _ => destruct x as [[[? ?] ?]|]; simpl in H; try discriminate
         end.
  by injection H as <-.
Qed.

Lemma decode_questions_nonempty (b64decode : string -> option (list Byte.byte))
    (root : Element) (t : Test) :
  decode b64decode root = Ok (inr t) ->
  Forall (fun q => options q <> [] /\ correct_indices q <> []) (questions t).
Proof.
  unfold decode. intros H.
  destruct (find_desc "p" "t" root); [|done].
  destruct (find "c" root) as [container|]; [|done].
  destruct (decode_questions _ _) as [qs|] eqn:Hqs; [|done]. simpl in H.
  destruct qs as [|q0 qs]; [done|]. injection H as <-. simpl.
  apply Forall_forall. intros q Hq.
  apply (decode_questions_elem _ _ _ Hqs) in Hq as (node & _ & Hnode).
  by apply decode_question_node_nonempty in Hnode.
Qed.

Lemma elem_of_choice_correct_indices (code : string) (i : Z) :
  i ∈ choice_correct_indices code <->
  (0 <= i)%Z /\ chars code !! Z.to_nat i = Some "2"%char.
Proof.
  unfold choice_correct_indices. rewrite list_elem_of_fmap. split.
  - intros ([j c] & -> & Hin). apply list_elem_of_filter in Hin as [Hc Hin].
    simpl in *. subst c. by apply elem_of_enumerate in Hin.
  - intros Hi. exists (i, "2"%char). split; [done|].
    apply list_elem_of_filter. split; [done|]. by apply elem_of_enumerate.
Qed.

(** The correct indices of every decoded question are pairwise distinct. *)
Lemma ordering_correct_indices_NoDup (num_options : Z) (code : string)
    (correct : list Z) :
  ordering_correct_indices num_options code = Ok correct -> NoDup correct.
Proof.
  unfold ordering_correct_indices.
  destruct (traverse _ _) as [positions|]; [|done]. simpl. intros [= <-].
  rewrite py_sorted_Permutation, <- list_fmap_compose.
  apply (filter_enumerate_NoDup (fun ip : Z * Z => (ip.1 < num_options)%Z)).
Qed.

Lemma decode_question_node_NoDup (images : gmap string (list Byte.byte))
    (node : Element) (q : Question) :
  decode_question_node images node = Ok (Some q) -> NoDup (correct_indices q).
Proof.
  unfold decode_question_node. intros H.
  destruct (find "t" node) as [type_tag|]; [|done].
  destruct (text type_tag) as [q_type_code|]; [|done].
  destruct (find "p" node) as [p_tag|]; [|done].
  destruct (find "c" node) as [answer_node|]; [|done].
  destruct (decide (q_type_code = "1")).
  - destruct (text answer_node) as [code|]; [|done]. simpl in H.
    destruct (node_options node); [done|].
    destruct (choice_correct_indices code) as [|c cs] eqn:Hc; [done|].
    injection H as <-. simpl. rewrite <- Hc. apply choice_correct_indices_NoDup.
  - destruct (decide (q_type_code = "6")); [|done].
    destruct (text answer_node) as [code|]; [|done].
    destruct (ordering_correct_indices _ code) as [correct|] eqn:Hord; [|done].
    simpl in H. apply ordering_correct_indices_NoDup in Hord.
    destruct (ordering_options _); [done|]. destruct correct; [done|].
    by injection H as <-.
Qed.

Lemma decode_correct_indices_NoDup (b64decode : string -> option (list Byte.byte))
    (root : Element) (t : Test) :
  decode b64decode root = Ok (inr t) ->
  Forall (fun q => NoDup (correct_indices q)) (questions t).
Proof.
  unfold decode. intros H.
  destruct (find_desc "p" "t" root); [|done].
  destruct (find "c" root) as [container|]; [|done].
  destruct (decode_questions _ _) as [qs|] eqn:Hqs; [|done]. simpl in H.
  destruct qs as [|q0 qs]; [done|]. injection H as <-. simpl.
  apply Forall_forall. intros q Hq.
  apply (decode_questions_elem _ _ _ Hqs) in Hq as (node & _ & Hnode).
  by apply decode_question_node_NoDup in Hnode.
Qed.

(** C2: for a question node of type code "1" with a prompt and an answer
    string, the flagged indices are exactly the positions of the answer
    string that hold the character '2'.  With at least one option, one
    flagged index gives a Single question and more than one a Multiple
    question, with the flagged indices as correct indices; with no option
    or no flagged index the node appends nothing.  No question of a decoded
    Test has an empty option list or an empty list of correct indices. *)
Theorem choice_decode (images : gmap string (list Byte.byte))
    (node type_tag p_tag answer_node : Element) (code : string) :
  find "t" node = Some type_tag ->
  text type_tag = Some "1" ->
  find "p" node = Some p_tag ->
  find "c" node = Some answer_node ->
  text answer_node = Some code ->
  (forall i : Z, i ∈ choice_correct_indices code <->
                 (0 <= i)%Z /\ chars code !! Z.to_nat i = Some "2"%char) /\
  (node_options node = [] \/ choice_correct_indices code = [] ->
   decode_question_node images node = Ok None) /\
  (node_options node <> [] ->
   (1 <= length (choice_correct_indices code))%nat ->
   decode_question_node images node =
     Ok (Some (new_Question (strip (join (itertext p_tag)))
                 (if decide (length (choice_correct_indices code) = 1%nat)
                  then single else multiple)
                 (node_options node) (choice_correct_indices code)
                 (node_image images node)))) /\
  (forall (b64decode : string -> option (list Byte.byte)) (root : Element)
          (t : Test),
     decode b64decode root = Ok (inr t) ->
     Forall (fun q => options q <> [] /\ correct_indices q <> []) (questions t)).
Proof.
  intros Ht Hcode1 Hp Hc Hcode.
  split; [apply elem_of_choice_correct_indices|].
  assert (decode_question_node images node =
          match node_options node, choice_correct_indices code with
          | _ :: _, _ :: _ =>
              Ok (Some (new_Question (strip (join (itertext p_tag)))
                          (if decide (length (choice_correct_indices code) = 1%nat)
                           then single else multiple)
                          (node_options node) (choice_correct_indices code)
                          (node_image images node)))
          | _, _ => Ok None
          end) as Hdec.
  { unfold decode_question_node. rewrite Ht, Hcode1, Hp, Hc, Hcode.
    rewrite decide_True by done. simpl.
    by destruct (node_options node), (choice_correct_indices code). }
  split; [|split].
  - rewrite Hdec. intros [-> | ->]; [done|]. by destruct (node_options node).
  - intros Hopts Hlen. rewrite Hdec.
    destruct (node_options node) as [|o opts]; [done|].
    by destruct (choice_correct_indices code) as [|c correct]; [simpl in Hlen; lia|].
  - intros b64decode root t. apply decode_questions_nonempty.
Qed.

Lemma choice_decode_witness :
  decode_question_node ∅ capital_node
    = Ok (Some (new_Question "Capital of France?" single
                  ["Paris"; "London"; "Rome"] [0%Z] None)).
Proof.
  destruct (choice_decode ∅ capital_node (el "t" (Some "1") [])
              (el "p" (Some "Capital of France?") []) (el "c" (Some "211") []) "211"
              eq_refl eq_refl eq_refl eq_refl eq_refl)
    as (_ & _ & Hsome & _).
  rewrite Hsome.
  - reflexivity.
  - discriminate.
  - vm_compute. lia.
Defined.

(** ** The decoder: ordering questions *)

Lemma tuple_le_spec (a b : Z * Z) :
  tuple_le a b = true <-> (a.1 < b.1 \/ (a.1 = b.1 /\ a.2 <= b.2))%Z.
Proof.
  unfold tuple_le.
  rewrite orb_true_iff, andb_true_iff, Z.ltb_lt, Z.eqb_eq, Z.leb_le. done.
Qed.

Lemma tuple_le_total (a b : Z * Z) : tuple_le a b = true \/ tuple_le b a = true.
Proof. rewrite !tuple_le_spec. lia. Qed.

Lemma tuple_le_trans (a b c : Z * Z) :
  tuple_le a b = true -> tuple_le b c = true -> tuple_le a c = true.
Proof. rewrite !tuple_le_spec. lia. Qed.

Lemma digit_value_is_digit (c : ascii) :
  is_digit c ->
  digit_value c = Some (Z.of_nat (nat_of_ascii c) - 48)%Z /\
  isspace c = false /\ c <> "-"%char /\ c <> "+"%char.
Proof.
  unfold is_digit, digit_value, isspace. intros Hc.
  split; [|split; [|split]].
  - replace ((48 <=? nat_of_ascii c)%nat && (nat_of_ascii c <=? 57)%nat) with true.
    + f_equal. lia.
    + symmetry. apply andb_true_iff. split; apply Nat.leb_le; lia.
  - apply orb_false_iff. split; apply andb_false_iff.
    + right. apply Nat.leb_gt. lia.
    + right. apply Nat.leb_gt. lia.
  - intros ->. vm_compute in Hc. lia.
  - intros ->. vm_compute in Hc. lia.
Qed.

Lemma py_int_two_digits (a b : ascii) :
  is_digit a -> is_digit b ->
  py_int (String a (String b EmptyString)) =
    Ok (10 * (Z.of_nat (nat_of_ascii a) - 48) + (Z.of_nat (nat_of_ascii b) - 48))%Z.
Proof.
  intros Ha Hb.
  destruct (digit_value_is_digit a Ha) as (Hva & Hsa & Hma & Hpa).
  destruct (digit_value_is_digit b Hb) as (Hvb & Hsb & _ & _).
  unfold py_int, chars. simpl list_ascii_of_string.
  assert (rev (lstrip (rev (lstrip [a; b]))) = [a; b]) as ->.
  { simpl. rewrite Hsa. simpl. by rewrite Hsb. }
  assert (digits_value 0 true [a; b] =
          Some (10 * (Z.of_nat (nat_of_ascii a) - 48)
                + (Z.of_nat (nat_of_ascii b) - 48))%Z) as Hd.
  { simpl. rewrite Hva, Hvb. f_equal; lia. }
  clear Ha Hva Hsa. cbv zeta.
  destruct a as [[] [] [] [] [] [] [] []]; try congruence;
    cbv beta iota; by rewrite Hd.
Qed.

Lemma wrap2_join (groups : list string) :
  Forall two_digits groups -> wrap2 (join groups) = groups.
Proof.
  unfold wrap2, chars, join.
  induction 1 as [|g groups (a & b & -> & _ & _) _ IH]; [done|].
  change (wrap2_go (a :: b :: list_ascii_of_string (foldr String.append "" groups))
          = String a (String b "") :: groups).
  cbn [wrap2_go]. by rewrite IH.
Qed.

Lemma group_position_decode (num_options : Z) (g : string) :
  two_digits g ->
  (if decide (g <> "00") then py_int g else Ok num_options)
    = Ok (group_position num_options g).
Proof.
  intros (a & b & -> & Ha & Hb). unfold group_position.
  destruct (decide (String a (String b "") = "00")) as [Heq|Hne].
  - by rewrite decide_False by (by intros ?).
  - rewrite decide_True by done. by apply py_int_two_digits.
Qed.

Lemma traverse_groups (num_options : Z) (groups : list string) :
  Forall two_digits groups ->
  traverse (fun p => if decide (p <> "00") then py_int p else Ok num_options) groups
    = Ok (group_position num_options <$> groups).
Proof.
  induction 1 as [|g groups Hg _ IH]; [done|].
  cbn [traverse]. by rewrite IH, group_position_decode.
Qed.

Lemma filter_Forall_id {A} (P : A -> Prop) `{!forall x, Decision (P x)} (l : list A) :
  Forall P l -> filter P l = l.
Proof.
  induction 1 as [|x l Hx _ IH]; [done|].
  by rewrite filter_cons_True, IH.
Qed.

Lemma ordering_correct_indices_groups (groups : list string) :
  Forall two_digits groups ->
  ordering_correct_indices (Z.of_nat (length groups)) (join groups) =
    Ok (py_sorted tuple_le
          ((fun ip => (ip.2, ip.1)) <$>
             enumerate (group_position (Z.of_nat (length groups)) <$> groups))).*2.
Proof.
  intros Hg. unfold ordering_correct_indices.
  rewrite wrap2_join, traverse_groups by done. cbn [bind].
  rewrite filter_Forall_id; [done|].
  apply Forall_forall. intros [i p] Hin. apply elem_of_enumerate in Hin as [_ Hin].
  apply lookup_lt_Some in Hin. rewrite length_fmap in Hin. simpl. lia.
Qed.

Lemma ranks_before_antisym (num_options : Z) (groups : list string) (i j : Z) :
  ranks_before num_options groups i j -> ranks_before num_options groups j i ->
  i = j.
Proof. unfold ranks_before. lia. Qed.

Lemma sorted_positions_spec (num_options : Z) (groups : list string) :
  (py_sorted tuple_le
     ((fun ip => (ip.2, ip.1)) <$>
        enumerate (group_position num_options <$> groups))).*2
    ≡ₚ seqZ 0 (Z.of_nat (length groups)) /\
  StronglySorted (ranks_before num_options groups)
    (py_sorted tuple_le
       ((fun ip => (ip.2, ip.1)) <$>
          enumerate (group_position num_options <$> groups))).*2.
Proof.
  split.
  - rewrite py_sorted_Permutation, <- list_fmap_compose.
    rewrite <- (length_fmap (group_position num_options) groups).
    rewrite <- enumerate_fst. done.
  - apply (StronglySorted_fmap_elem snd (fun a b => tuple_le a b = true)).
    + assert (forall x : Z * Z,
                x ∈ py_sorted tuple_le
                      ((fun ip => (ip.2, ip.1)) <$>
                         enumerate (group_position num_options <$> groups)) ->
                x.1 = position_at num_options groups x.2) as Hmem.
      { intros x Hx. rewrite py_sorted_Permutation in Hx.
        apply list_elem_of_fmap in Hx as ([i p] & -> & Hin).
        apply elem_of_enumerate in Hin as [_ Hin]. simpl.
        rewrite list_lookup_fmap in Hin. unfold position_at.
        destruct (groups !! Z.to_nat i); [|done]. by injection Hin as <-. }
      intros x y Hx Hy Hle. apply tuple_le_spec in Hle.
      unfold ranks_before. rewrite <- (Hmem x Hx), <- (Hmem y Hy). done.
    + apply py_sorted_StronglySorted.
      * apply tuple_le_total.
      * apply tuple_le_trans.
Qed.

(** C1: for a question node of type code "6" with a prompt, whose answer
    string is made of one 2-digit group per decoded option (at least one),
    decoding gives an Ordering question over the decoded options.  Each
    group stands for the position its digits write, the group "00" for the
    number of options; the correct indices are the option indices
    0..N-1, each once, in the order of their positions, by index among
    equal positions, and they are the only list with these properties. *)
Theorem ordering_decode (images : gmap string (list Byte.byte))
    (node type_tag p_tag answer_node : Element) (groups : list string) :
  find "t" node = Some type_tag ->
  text type_tag = Some "6" ->
  find "p" node = Some p_tag ->
  find "c" node = Some answer_node ->
  text answer_node = Some (join groups) ->
  Forall two_digits groups ->
  length groups = length (ordering_options (node_options node)) ->
  groups <> [] ->
  exists correct : list Z,
    decode_question_node images node =
      Ok (Some (new_Question (strip (join (itertext p_tag))) ordering
                  (ordering_options (node_options node)) correct
                  (node_image images node))) /\
    correct ≡ₚ seqZ 0 (Z.of_nat (length groups)) /\
    StronglySorted (ranks_before (Z.of_nat (length groups)) groups) correct /\
    (forall l : list Z,
       l ≡ₚ seqZ 0 (Z.of_nat (length groups)) ->
       StronglySorted (ranks_before (Z.of_nat (length groups)) groups) l ->
       l = correct).
Proof.
  intros Ht Hcode6 Hp Hc Hcode Hgroups Hlen Hne.
  destruct (sorted_positions_spec (Z.of_nat (length groups)) groups)
    as [Hperm Hsorted].
  eexists. split; [|split; [exact Hperm|split; [exact Hsorted|]]].
  - unfold decode_question_node. rewrite Ht, Hcode6, Hp, Hc, Hcode.
    rewrite decide_False by done. rewrite decide_True by done.
    rewrite <- Hlen, ordering_correct_indices_groups by done. cbn [bind].
    destruct (ordering_options (node_options node)) as [|o opts];
      [by destruct groups|].
    match goal with
    | |- context [py_sorted ?le ?l] =>
        destruct (py_sorted le l) as [|x xs] eqn:Hs
    end; [|done].
    simpl in Hperm.
    apply Permutation_length in Hperm. rewrite length_seqZ in Hperm.
    destruct groups; [done|]. simpl in Hperm. lia.
  - intros l Hl Hsl.
    apply (StronglySorted_unique_strong
             (ranks_before (Z.of_nat (length groups)) groups)); [|done..|].
    + intros i j _ _. apply ranks_before_antisym.
    + by rewrite Hl, Hperm.
Qed.

Lemma ordering_decode_witness :
  decode_question_node ∅ abc_node
    = Ok (Some (new_Question "Put in order" ordering ["A"; "B"; "C"]
                  [1%Z; 0%Z; 2%Z] None)).
Proof.
  destruct (ordering_decode ∅ abc_node (el "t" (Some "6") [])
              (el "p" (Some "Put in order") []) (el "c" (Some "020100") [])
              ["02"; "01"; "00"] eq_refl eq_refl eq_refl eq_refl eq_refl)
    as (correct & -> & _ & _ & Hunique).
  - repeat constructor.
    + exists "0"%char, "2"%char. split; [reflexivity|]. vm_compute. lia.
    + exists "0"%char, "1"%char. split; [reflexivity|]. vm_compute. lia.
    + exists "0"%char, "0"%char. split; [reflexivity|]. vm_compute. lia.
  - reflexivity.
  - discriminate.
  - rewrite <- (Hunique [1%Z; 0%Z; 2%Z]).
    + reflexivity.
    + apply Permutation_swap.
    + by apply (bool_decide_unpack _).
Defined.

(** ** The decoder: title and namespaces *)

Lemma decode_title_absent (b64decode : string -> option (list Byte.byte))
    (root : Element) :
  find_desc "p" "t" root = None -> decode b64decode root = Raise AttributeError.
Proof. intros H. unfold decode. by rewrite H. Qed.

Lemma decode_title_empty (b64decode : string -> option (list Byte.byte))
    (root title_node : Element) (t : Test) :
  find_desc "p" "t" root = Some title_node ->
  text title_node = None \/ text title_node = Some "" ->
  decode b64decode root = Ok (inr t) ->
  title t = "Practice Test".
Proof.
  intros Hfind Htext. unfold decode. rewrite Hfind.
  destruct (find "c" root); [|done].
  destruct (decode_questions _ _) as [[|q qs]|]; simpl; try done.
  intros [= <-]. simpl. by destruct Htext as [-> | ->].
Qed.

(** C9: the bank without a title field does not decode: the lookup of the
    title returns [None] and reading its text raises [AttributeError],
    which [load_new_test_from_file] does not catch.  The same bank with an
    empty title field, and with a title, decodes; the empty title becomes
    "Practice Test". *)
Theorem title_absent_raises (b64decode : string -> option (list Byte.byte)) :
  decode b64decode untitled_bank = Raise AttributeError /\
  load_new_test_from_file b64decode new_Test (Parsed untitled_bank) NoProgressFile
    = Raise AttributeError /\
  decode b64decode empty_title_bank
    = Ok (inr {| questions := [capital_question]; current_question_index := 0;
                 title := "Practice Test" |}) /\
  decode b64decode capital_bank
    = Ok (inr {| questions := [capital_question]; current_question_index := 0;
                 title := "Geography" |}).
Proof. repeat split; by vm_compute. Qed.

(** C6: the bank under a default namespace does not decode to the Test of
    the bank without prefixes.  The prefixes are stripped from the elements
    of the [iterparse] pass, which gives the unqualified bank, but the
    lookups run on the tree of a second parse, whose tags still carry the
    prefix: no title is found and [AttributeError] is raised. *)
Theorem namespace_prefix_not_stripped (b64decode : string -> option (list Byte.byte)) :
  strip_namespaces qualified_capital_bank = capital_bank /\
  decode b64decode capital_bank
    = Ok (inr {| questions := [capital_question]; current_question_index := 0;
                 title := "Geography" |}) /\
  decode b64decode qualified_capital_bank = Raise AttributeError /\
  load_new_test_from_file b64decode new_Test (Parsed qualified_capital_bank)
    NoProgressFile = Raise AttributeError.
Proof. repeat split; by vm_compute. Qed.

(** * Further properties of the session engine *)

(** ** Navigation *)

(** X1: with the cursor on a question, [next_question] and
    [previous_question] leave it on a question; they report [False]
    exactly at the last and at the first question, where they change
    nothing; they never touch the questions or the title. *)
Theorem navigation_keeps_range (t : Test) :
  cursor_in_range t ->
  cursor_in_range (next_question t).1 /\
  cursor_in_range (previous_question t).1 /\
  ((next_question t).2 = false <->
   current_question_index t = (Z.of_nat (length (questions t)) - 1)%Z) /\
  ((previous_question t).2 = false <-> current_question_index t = 0%Z) /\
  ((next_question t).2 = false -> (next_question t).1 = t) /\
  ((previous_question t).2 = false -> (previous_question t).1 = t) /\
  questions (next_question t).1 = questions t /\
  questions (previous_question t).1 = questions t /\
  title (next_question t).1 = title t /\
  title (previous_question t).1 = title t.
Proof.
  unfold cursor_in_range, next_question, previous_question. intros Hr.
  repeat case_decide; simpl; repeat split; try done; try lia.
Qed.

Lemma navigation_keeps_range_witness :
  cursor_in_range (next_question second_of_three).1 /\
  cursor_in_range (previous_question second_of_three).1.
Proof.
  assert (cursor_in_range second_of_three) as H.
  { unfold cursor_in_range. simpl. lia. }
  destruct (navigation_keeps_range second_of_three H) as (Hn & Hp & _).
  exact (conj Hn Hp).
Defined.

(** X2: from a cursor that is not negative, a successful [next_question]
    is undone by [previous_question]; from a cursor that is not beyond the
    last question, a successful [previous_question] is undone by
    [next_question]. *)
Theorem navigation_round_trip (t : Test) :
  ((0 <= current_question_index t)%Z ->
   (next_question t).2 = true ->
   previous_question (next_question t).1 = (t, true)) /\
  ((current_question_index t <= Z.of_nat (length (questions t)) - 1)%Z ->
   (previous_question t).2 = true ->
   next_question (previous_question t).1 = (t, true)).
Proof.
  destruct t as [qs cursor ttl].
  unfold next_question, previous_question. simpl. split; intros Hc Hmoved.
  - destruct (decide (cursor < Z.of_nat (length qs) - 1)%Z); [|done]. simpl.
    rewrite decide_True by lia. do 2 f_equal. lia.
  - destruct (decide (cursor > 0)%Z); [|done]. simpl.
    rewrite decide_True by lia. do 2 f_equal. lia.
Qed.

Lemma navigation_round_trip_witness :
  previous_question (next_question second_of_three).1 = (second_of_three, true) /\
  next_question (previous_question second_of_three).1 = (second_of_three, true).
Proof.
  destruct (navigation_round_trip second_of_three) as [Hnp Hpn]. split.
  - apply Hnp; [simpl; lia|reflexivity].
  - apply Hpn; [simpl; lia|reflexivity].
Defined.

(** ** What an evaluation changes *)

(** X3: [evaluate_answer] changes nothing but the AnswerState of the
    current question: the number of questions, the cursor, the title, what
    every question is, and every other question stay as they were; with no
    current question it changes nothing at all and returns [None]. *)
Theorem evaluate_answer_frame (t : Test) (user_answer : list Z)
    (raw : option (list Z)) :
  length (questions (evaluate_answer t user_answer raw).1) = length (questions t) /\
  current_question_index (evaluate_answer t user_answer raw).1
    = current_question_index t /\
  title (evaluate_answer t user_answer raw).1 = title t /\
  static_part <$> questions (evaluate_answer t user_answer raw).1
    = static_part <$> questions t /\
  (forall j : nat, j <> Z.to_nat (current_question_index t) ->
     questions (evaluate_answer t user_answer raw).1 !! j = questions t !! j) /\
  (get_current_question t = None ->
   evaluate_answer t user_answer raw = (t, None)).
Proof.
  unfold evaluate_answer.
  destruct (get_current_question t) as [q|] eqn:Hq; simpl; [|done].
  apply get_current_question_Some in Hq as [Hr Hq].
  split; [apply length_insert|]. split; [done|]. split; [done|].
  split; [|split; [|done]].
  - rewrite list_fmap_insert. apply list_insert_id.
    by rewrite list_lookup_fmap, Hq.
  - intros j Hj. by apply list_lookup_insert_ne.
Qed.

Lemma evaluate_answer_frame_witness :
  questions (evaluate_answer second_of_three [0%Z] None).1 !! 0%nat
    = Some capital_question /\
  evaluate_answer (test_of []) [0%Z] None = (test_of [], None).
Proof.
  destruct (evaluate_answer_frame second_of_three [0%Z] None)
    as (_ & _ & _ & _ & Hother & _).
  destruct (evaluate_answer_frame (test_of []) [0%Z] None)
    as (_ & _ & _ & _ & _ & Hnone).
  split; [rewrite (Hother 0%nat); [reflexivity|discriminate]|].
  by apply Hnone.
Defined.

(** ** The counters *)

Lemma length_filter_insert {A} (P : A -> Prop) `{!forall x, Decision (P x)}
    (l : list A) (i : nat) (x y : A) :
  l !! i = Some x ->
  (length (filter P (<[i := y]> l)) + (if decide (P x) then 1 else 0)
   = length (filter P l) + (if decide (P y) then 1 else 0))%nat.
Proof.
  intros Hi. pose proof (lookup_lt_Some _ _ _ Hi) as Hlt.
  rewrite insert_take_drop by done.
  rewrite <- (take_drop_middle l i x Hi) at 3.
  rewrite !filter_app, !filter_cons, !length_app.
  repeat case_decide; simpl; lia.
Qed.

(** X4: the correct and the incorrect answers never outnumber the
    questions; when every question stores a verdict exactly if it is
    answered, they add up to the number of answered questions. *)
Theorem counters_agree (t : Test) :
  (num_correct t + num_incorrect t <= length (questions t))%nat /\
  (num_answered t <= length (questions t))%nat /\
  (Forall state_agrees (questions t) ->
   (num_correct t + num_incorrect t = num_answered t)%nat).
Proof.
  unfold num_correct, num_incorrect, num_answered.
  induction (questions t) as [|q qs (IH1 & IH2 & IH3)]; [done|].
  rewrite !filter_cons. split; [|split].
  - repeat case_decide; simpl; try lia. congruence.
  - case_decide; simpl; lia.
  - intros [Hq Hqs]%Forall_cons. specialize (IH3 Hqs).
    unfold state_agrees in Hq.
    destruct (is_answered q), (is_correct q) as [[]|];
      repeat case_decide; simpl; try done; try lia;
      exfalso; intuition congruence.
Qed.

Lemma counters_agree_witness :
  (num_correct answered_capital_test + num_incorrect answered_capital_test
   = num_answered answered_capital_test)%nat.
Proof.
  destruct (counters_agree answered_capital_test) as (_ & _ & H).
  apply H. unfold state_agrees.
  repeat constructor; simpl; intros; done.
Defined.

(** X5: evaluating an answer for a current question that is unanswered
    raises the number of answered questions by one, and with it the number
    of correct answers if the verdict is positive, of incorrect ones
    otherwise. *)
Theorem evaluate_answer_counts (t : Test) (q : Question) (user_answer : list Z)
    (raw : option (list Z)) (verdict : bool) :
  get_current_question t = Some q ->
  is_answered q = false ->
  is_correct q = None ->
  (evaluate_answer t user_answer raw).2 = Some verdict ->
  num_answered (evaluate_answer t user_answer raw).1 = S (num_answered t) /\
  num_correct (evaluate_answer t user_answer raw).1
    = (num_correct t + (if verdict then 1 else 0))%nat /\
  num_incorrect (evaluate_answer t user_answer raw).1
    = (num_incorrect t + (if verdict then 0 else 1))%nat.
Proof.
  intros Hq Hans Hcor. unfold evaluate_answer. rewrite Hq. simpl.
  intros [= Hv]. rewrite Hv.
  apply get_current_question_Some in Hq as [_ Hq].
  unfold num_answered, num_correct, num_incorrect. simpl.
  repeat split.
  - match goal with |- context [<[_ := ?y]> _] =>
      pose proof (length_filter_insert (fun q => is_answered q = true) _ _ _ y Hq) as H
    end.
    simpl in H. rewrite Hans in H. simpl in H. lia.
  - match goal with |- context [<[_ := ?y]> _] =>
      pose proof (length_filter_insert (fun q => is_correct q = Some true) _ _ _ y Hq) as H
    end.
    simpl in H. rewrite Hcor in H. destruct verdict; simpl in H; lia.
  - match goal with |- context [<[_ := ?y]> _] =>
      pose proof (length_filter_insert (fun q => is_correct q = Some false) _ _ _ y Hq) as H
    end.
    simpl in H. rewrite Hcor in H. destruct verdict; simpl in H; lia.
Qed.

Lemma evaluate_answer_counts_witness :
  num_answered (evaluate_answer three_question_test [0%Z] None).1 = 1%nat /\
  num_correct (evaluate_answer three_question_test [0%Z] None).1 = 1%nat /\
  num_incorrect (evaluate_answer three_question_test [0%Z] None).1 = 0%nat.
Proof.
  exact (evaluate_answer_counts three_question_test capital_question [0%Z] None
           true eq_refl eq_refl eq_refl eq_refl).
Defined.

(** ** The state of the questions *)

Lemma unanswered_state_agrees (q : Question) : unanswered q -> state_agrees q.
Proof.
  unfold unanswered, answer_state, state_agrees. intros [= _ _ -> ->]. done.
Qed.

Lemma decode_question_node_unanswered (images : gmap string (list Byte.byte))
    (node : Element) (q : Question) :
  decode_question_node images node = Ok (Some q) -> unanswered q.
Proof.
  unfold decode_question_node. intros H.
  repeat match type of H with
         | match ?x with _ => _ end = _ => destruct x; try discriminate
         | bind ?x _ = _ => destruct x as [[[? ?] ?]|]; simpl in H; try discriminate
         end.
  by injection H as <-.
Qed.

Lemma decode_unanswered (b64decode : string -> option (list Byte.byte))
    (root : Element) (t : Test) :
  decode b64decode root = Ok (inr t) ->
  Forall unanswered (questions t) /\ current_question_index t = 0%Z /\
  questions t <> [].
Proof.
  unfold decode. intros H.
  destruct (find_desc "p" "t" root); [|done].
  destruct (find "c" root) as [container|]; [|done].
  destruct (decode_questions _ _) as [qs|] eqn:Hqs; [|done]. simpl in H.
  destruct qs as [|q0 qs]; [done|]. injection H as <-. simpl.
  split; [|done]. apply Forall_forall. intros q Hq.
  apply (decode_questions_elem _ _ _ Hqs) in Hq as (node & _ & Hnode).
  by apply decode_question_node_unanswered in Hnode.
Qed.

(** X6: every question of a decoded Test stores a verdict exactly if it is
    answered (none is answered), and evaluating an answer, retrying, and
    resuming the progress saved from a Test with that property keep it. *)
Theorem state_agrees_invariant :
  (forall (b64decode : string -> option (list Byte.byte)) (root : Element) (t : Test),
     decode b64decode root = Ok (inr t) -> Forall state_agrees (questions t)) /\
  (forall (t : Test) (user_answer : list Z) (raw : option (list Z)),
     Forall state_agrees (questions t) ->
     Forall state_agrees (questions (evaluate_answer t user_answer raw).1)) /\
  (forall (t : Test) (subset : list Question),
     Forall state_agrees (questions (retry_incorrect t subset))) /\
  (forall (saved live resumed : Test),
     Forall state_agrees (questions saved) ->
     Forall state_agrees (questions live) ->
     restore_progress live (progress_data saved) = Some resumed ->
     Forall state_agrees (questions resumed)).
Proof.
  split; [|split; [|split]].
  - intros b64decode root t Hdec. apply decode_unanswered in Hdec as [Hun _].
    eapply Forall_impl; [exact Hun|]. apply unanswered_state_agrees.
  - intros t user_answer raw Hall. unfold evaluate_answer.
    destruct (get_current_question t) as [q|]; [|done]. simpl.
    apply Forall_insert; [done|]. unfold state_agrees. simpl. done.
  - intros t subset. simpl. rewrite Forall_fmap. apply Forall_true.
    intros q. unfold state_agrees. simpl. split; [done|]. by intros [].
  - intros saved live resumed Hsaved Hlive.
    rewrite restore_progress_saved. intros [= <-]. simpl.
    rewrite Forall_fmap. rewrite Forall_forall in Hlive |- *.
    intros q Hq. simpl.
    destruct (last_with_text _ _) as [s|] eqn:Hs; [|by apply Hlive].
    apply last_with_text_Some in Hs as [Hs _].
    rewrite Forall_forall in Hsaved. apply (Hsaved s Hs).
Qed.

Lemma state_agrees_invariant_witness :
  Forall state_agrees (questions (evaluate_answer three_question_test [1%Z] None).1).
Proof.
  destruct state_agrees_invariant as (_ & Heval & _).
  apply Heval.
  repeat (apply List.Forall_cons; [by apply unanswered_state_agrees|]).
  apply List.Forall_nil.
Defined.

(** ** Retrying *)

(** X7: retrying the questions that are not correct leaves exactly those
    questions, in their order, unanswered ones included, each as it was
    apart from its AnswerState, which is empty again; the cursor is 0, the
    title is kept and all three counters are 0.  After the retry every
    question counts as not correct again.  When every question is correct
    there is nothing to retry, and [on_next] at the last question changes
    nothing. *)
Theorem retry_incorrect_summary (t : Test) :
  static_part <$> questions (retry_incorrect t (incorrect_questions t))
    = static_part <$> filter (fun q => is_correct q <> Some true) (questions t) /\
  Forall unanswered (questions (retry_incorrect t (incorrect_questions t))) /\
  current_question_index (retry_incorrect t (incorrect_questions t)) = 0%Z /\
  title (retry_incorrect t (incorrect_questions t)) = title t /\
  num_answered (retry_incorrect t (incorrect_questions t)) = 0%nat /\
  num_correct (retry_incorrect t (incorrect_questions t)) = 0%nat /\
  num_incorrect (retry_incorrect t (incorrect_questions t)) = 0%nat /\
  incorrect_questions (retry_incorrect t (incorrect_questions t))
    = questions (retry_incorrect t (incorrect_questions t)) /\
  (Forall (fun q => is_correct q = Some true) (questions t) ->
   incorrect_questions t = [] /\
   forall retry : bool, (next_question t).2 = false -> on_next t retry = t).
Proof.
  assert (forall (P : Question -> Prop) `{!forall q, Decision (P q)} (l : list Question),
            (forall q, ~ P (reset_answer q)) ->
            filter P (reset_answer <$> l) = []) as Hnone.
  { intros P ? l HP. induction l as [|q l IH]; [done|]. csimpl.
    by rewrite filter_cons_False. }
  unfold num_answered, num_correct, num_incorrect, incorrect_questions. simpl.
  split; [by rewrite <- list_fmap_compose|].
  split; [rewrite Forall_fmap; by apply Forall_true|].
  do 2 (split; [done|]).
  rewrite !Hnone by done.
  do 3 (split; [done|]).
  split.
  { induction (filter _ (questions t)) as [|q l IH]; [done|]. csimpl.
    rewrite filter_cons_True by done. by rewrite IH. }
  intros Hall.
  assert (filter (fun q => is_correct q <> Some true) (questions t) = []) as Hnil.
  { induction Hall as [|q l Hq _ IH]; [done|].
    by rewrite filter_cons_False by (by intros []). }
  split; [done|]. intros retry Hlast. unfold on_next.
  rewrite Hlast. unfold incorrect_questions. by rewrite Hnil.
Qed.

Lemma retry_incorrect_summary_witness :
  on_next (test_of [mkQuestion "Capital of France?" single ["Paris"; "London"; "Rome"]
                      [0%Z] None [0%Z] [0%Z] true (Some true)]) true
  = test_of [mkQuestion "Capital of France?" single ["Paris"; "London"; "Rome"]
               [0%Z] None [0%Z] [0%Z] true (Some true)].
Proof.
  destruct (retry_incorrect_summary
              (test_of [mkQuestion "Capital of France?" single
                          ["Paris"; "London"; "Rome"] [0%Z] None [0%Z] [0%Z] true
                          (Some true)]))
    as (_ & _ & _ & _ & _ & _ & _ & _ & Hall).
  destruct Hall as [_ Hnext]; [by repeat constructor|].
  by apply Hnext.
Defined.

(** * Further properties of the decoder *)

(** ** Question nodes *)

Lemma decode_questions_Raise (images : gmap string (list Byte.byte))
    (nodes : list Element) (node : Element) (e : Exn) :
  node ∈ nodes -> decode_question_node images node = Raise e ->
  exists e', decode_questions images nodes = Raise e'.
Proof.
  induction nodes as [|n nodes IH]; intros Hin Hr; [by apply elem_of_nil in Hin|].
  simpl. apply elem_of_cons in Hin as [<-|Hin].
  - rewrite Hr. by eexists.
  - destruct (decode_question_node images n); simpl; [|by eexists].
    destruct (IH Hin Hr) as [e' ->]. by eexists.
Qed.

(** X8: the questions of a decoded bank are the questions of its nodes in
    the order of the nodes, a node that yields no question leaving no
    trace; decoding the nodes fails as soon as one node raises. *)
Theorem decode_questions_in_order (images : gmap string (list Byte.byte))
    (nodes : list Element) :
  (forall qs : list Question,
     decode_questions images nodes = Ok qs ->
     qs = omap (fun node => match decode_question_node images node with
                            | Ok r => r
                            | Raise _ => None
                            end) nodes /\
     Forall (fun node => exists r, decode_question_node images node = Ok r) nodes) /\
  (forall (node : Element) (e : Exn),
     node ∈ nodes -> decode_question_node images node = Raise e ->
     exists e', decode_questions images nodes = Raise e').
Proof.
  split; [|intros node e; apply decode_questions_Raise].
  induction nodes as [|n nodes IH]; simpl; intros qs Hqs.
  - by injection Hqs as <-.
  - destruct (decode_question_node images n) as [r|] eqn:Hn; [|done].
    simpl in Hqs.
    destruct (decode_questions images nodes) as [qs'|]; [|done]. simpl in Hqs.
    injection Hqs as <-. destruct (IH qs' eq_refl) as [-> Hall].
    split; [by destruct r|]. constructor; [by exists r|done].
Qed.

Lemma decode_questions_in_order_witness :
  decode_questions ∅ [unanswerable_node; capital_node; abc_node]
    = Raise AttributeError /\
  decode_questions ∅ [capital_node; abc_node]
    = Ok [new_Question "Capital of France?" single ["Paris"; "London"; "Rome"]
            [0%Z] None;
          new_Question "Put in order" ordering ["A"; "B"; "C"] [1%Z; 0%Z; 2%Z] None].
Proof.
  split.
  - destruct (decode_questions_in_order ∅ [unanswerable_node; capital_node; abc_node])
      as [_ Hraise].
    destruct (Hraise unanswerable_node AttributeError) as [e' He'].
    + left.
    + reflexivity.
    + rewrite He'. vm_compute in He'. by injection He' as <-.
  - destruct (decode_questions_in_order ∅ [capital_node; abc_node]) as [Hok _].
    destruct (decode_questions ∅ [capital_node; abc_node]) as [qs|] eqn:Hqs;
      [|by vm_compute in Hqs].
    destruct (Hok qs eq_refl) as [-> _]. reflexivity.
Defined.

(** X9: a question node without a type tag, with an empty type tag or
    without a prompt appends nothing, whatever else it holds.  A node with
    type and prompt but without the answer node raises [AttributeError],
    whatever its type code, and so does the decoding of every bank that
    holds such a node among its question nodes.  With the answer node
    present, a type code other than 1 and 6 appends nothing; an answer node
    without text raises [TypeError] for type 1 and [AttributeError] for
    type 6. *)
Theorem question_node_skipped_or_raises (images : gmap string (list Byte.byte))
    (node : Element) :
  (find "t" node = None \/
   (exists type_tag, find "t" node = Some type_tag /\ text type_tag = None) \/
   find "p" node = None ->
   decode_question_node images node = Ok None) /\
  (node_has_type_and_prompt node ->
   find "c" node = None ->
   decode_question_node images node = Raise AttributeError /\
   forall (b64decode : string -> option (list Byte.byte))
          (root title_node container : Element),
     find_desc "p" "t" root = Some title_node ->
     find "c" root = Some container ->
     node ∈ findall "c" container ->
     exists e, decode b64decode root = Raise e) /\
  (forall (type_tag answer_node : Element) (code : string),
     find "t" node = Some type_tag -> text type_tag = Some code ->
     is_Some (find "p" node) ->
     find "c" node = Some answer_node ->
     (code <> "1" -> code <> "6" -> decode_question_node images node = Ok None) /\
     (code = "1" -> text answer_node = None ->
      decode_question_node images node = Raise TypeError) /\
     (code = "6" -> text answer_node = None ->
      decode_question_node images node = Raise AttributeError)).
Proof.
  split; [|split].
  - unfold decode_question_node. intros [Ht|[(tt & Ht & Htext)|Hp]].
    + by rewrite Ht.
    + by rewrite Ht, Htext.
    + destruct (find "t" node) as [tt|]; [|done].
      destruct (text tt); [|done]. by rewrite Hp.
  - intros [(tt & code & Ht & Htext) [p Hp]] Hc.
    assert (decode_question_node images node = Raise AttributeError) as Hraise.
    { unfold decode_question_node. by rewrite Ht, Htext, Hp, Hc. }
    split; [done|].
    intros b64decode root title_node container Htitle Hcont Hin.
    unfold decode. rewrite Htitle, Hcont.
    assert (decode_question_node (decode_images b64decode root) node
            = Raise AttributeError) as Hr.
    { unfold decode_question_node. by rewrite Ht, Htext, Hp, Hc. }
    destruct (decode_questions_Raise _ _ _ _ Hin Hr) as [e' ->]. by eexists.
  - intros tt answer_node code Ht Htext [p Hp] Hc.
    unfold decode_question_node. rewrite Ht, Htext, Hp, Hc.
    split; [|split].
    + intros H1 H6. rewrite !decide_False by done. simpl.
      by destruct (node_options node).
    + intros -> Hnone. rewrite Hnone, decide_True by done. done.
    + intros -> Hnone. rewrite Hnone, decide_False, decide_True by done. done.
Qed.

Lemma question_node_skipped_or_raises_witness :
  decode_question_node ∅ unanswerable_node = Raise AttributeError /\
  exists e, decode (fun _ => None) broken_bank = Raise e.
Proof.
  destruct (question_node_skipped_or_raises ∅ unanswerable_node)
    as (_ & Hraise & _).
  destruct Hraise as [Hnode Hbank].
  - split; [by exists (el "t" (Some "9") []), "9"|by eexists].
  - reflexivity.
  - split; [exact Hnode|].
    apply (Hbank (fun _ => None) broken_bank (el "t" (Some "Geography") [])
             (el "c" None [capital_node; unanswerable_node]));
      [reflexivity..|].
    vm_compute. right. left.
Defined.

(** ** Loading *)

(** X10: when [load_new_test_from_file] returns [False] the controller's
    test is the one it had; that is the outcome for a missing or
    unparseable file, for a bank without the question container and for a
    bank none of whose nodes yields a question.  When it returns [True] the
    new test has at least one question and does not depend on the old
    test. *)
Theorem load_failure_keeps_test (b64decode : string -> option (list Byte.byte))
    (self : Test) (src : Source) (store : ProgressStore) :
  (forall t', load_new_test_from_file b64decode self src store = Ok (t', false) ->
              t' = self) /\
  (src = FileNotFound \/ src = ParseError ->
   load_new_test_from_file b64decode self src store = Ok (self, false)) /\
  (forall root title_node : Element,
     src = Parsed root ->
     find_desc "p" "t" root = Some title_node ->
     (find "c" root = None \/
      exists container, find "c" root = Some container /\
        Forall (fun node => decode_question_node (decode_images b64decode root) node
                            = Ok None) (findall "c" container)) ->
     load_new_test_from_file b64decode self src store = Ok (self, false)) /\
  (forall t', load_new_test_from_file b64decode self src store = Ok (t', true) ->
              questions t' <> [] /\
              forall other : Test,
                load_new_test_from_file b64decode other src store = Ok (t', true)).
Proof.
  split; [|split; [|split]].
  - intros t'. unfold load_new_test_from_file.
    destruct src as [| |root]; try by intros [= <-].
    destruct (decode b64decode root) as [[err|new_test]|]; simpl; [|done..].
    by intros [= <-].
  - by intros [-> | ->].
  - intros root title_node -> Htitle Hcont. unfold load_new_test_from_file, decode.
    rewrite Htitle. destruct Hcont as [->|(container & -> & Hall)]; [done|].
    assert (decode_questions (decode_images b64decode root) (findall "c" container)
            = Ok []) as ->; [|done].
    induction Hall as [|n nodes Hn _ IH]; [done|]. simpl. by rewrite Hn, IH.
  - intros t'. unfold load_new_test_from_file.
    destruct src as [| |root]; try done.
    destruct (decode b64decode root) as [[err|new_test]|] eqn:Hdec; simpl; [done| |done].
    intros [= <-]. split; [|done].
    apply decode_unanswered in Hdec as (_ & _ & Hne).
    destruct store as [|[] [pd|]]; simpl; try done.
    destruct (restore_progress new_test pd) as [resumed|] eqn:Hr; simpl; [|done].
    unfold restore_progress in Hr.
    destruct (pd_questions pd) as [saved|]; [|done]. simpl in Hr.
    destruct (saved_questions_map saved); [|done]. simpl in Hr.
    injection Hr as <-. simpl. by destruct (questions new_test).
Qed.

Lemma load_failure_keeps_test_witness :
  load_new_test_from_file (fun _ => None) answered_capital_test
    (Parsed containerless_bank) NoProgressFile = Ok (answered_capital_test, false) /\
  load_new_test_from_file (fun _ => None) answered_capital_test
    (Parsed survey_bank) NoProgressFile = Ok (answered_capital_test, false).
Proof.
  split.
  - destruct (load_failure_keeps_test (fun _ => None) answered_capital_test
                (Parsed containerless_bank) NoProgressFile) as (_ & _ & H & _).
    apply (H containerless_bank (el "t" (Some "Nothing") [])); [done..|by left].
  - destruct (load_failure_keeps_test (fun _ => None) answered_capital_test
                (Parsed survey_bank) NoProgressFile) as (_ & _ & H & _).
    apply (H survey_bank (el "t" (Some "Survey") [])); [done..|].
    right. eexists. split; [reflexivity|]. by repeat constructor.
Defined.

Lemma unanswered_counts (t : Test) :
  Forall unanswered (questions t) ->
  num_answered t = 0%nat /\ num_correct t = 0%nat /\ num_incorrect t = 0%nat.
Proof.
  unfold num_answered, num_correct, num_incorrect.
  induction 1 as [|q qs Hq _ IH]; [done|].
  unfold unanswered, answer_state in Hq. injection Hq as _ _ Ha Hc.
  rewrite !filter_cons, !decide_False by (by rewrite ?Ha, ?Hc). exact IH.
Qed.

(** X11: a load that succeeds without resuming (no progress file, the user
    declines, or the file cannot be read as JSON) starts at the first
    question with every question unanswered and all counters at 0. *)
Theorem fresh_load (b64decode : string -> option (list Byte.byte))
    (self : Test) (root : Element) (store : ProgressStore) (t : Test) :
  (store = NoProgressFile \/ (exists content, store = ProgressFile false content) \/
   store = ProgressFile true None) ->
  load_new_test_from_file b64decode self (Parsed root) store = Ok (t, true) ->
  current_question_index t = 0%Z /\
  Forall unanswered (questions t) /\
  get_current_question t = head (questions t) /\
  is_Some (get_current_question t) /\
  num_answered t = 0%nat /\ num_correct t = 0%nat /\ num_incorrect t = 0%nat.
Proof.
  intros Hstore. unfold load_new_test_from_file.
  destruct (decode b64decode root) as [[err|new_test]|] eqn:Hdec; simpl; [done| |done].
  intros [= Ht].
  assert (t = new_test) as ->.
  { rewrite <- Ht. by destruct Hstore as [->|[[c ->]| ->]]. }
  apply decode_unanswered in Hdec as (Hun & Hcur & Hne).
  split; [done|]. split; [done|].
  assert (get_current_question new_test = head (questions new_test)) as Hget.
  { unfold get_current_question. rewrite Hcur.
    destruct (questions new_test) as [|q0 qs0]; [done|].
    case_decide as Hr; [done|]. exfalso. apply Hr. simpl length. lia. }
  split; [done|]. split; [rewrite Hget; by destruct (questions new_test)|].
  by apply unanswered_counts.
Qed.

Lemma fresh_load_witness :
  exists t, load_new_test_from_file (fun _ => None) answered_capital_test
              (Parsed capital_bank) (ProgressFile false None) = Ok (t, true) /\
            get_current_question t = Some capital_question /\
            num_answered t = 0%nat.
Proof.
  eexists. split; [reflexivity|].
  destruct (fresh_load (fun _ => None) answered_capital_test capital_bank
              (ProgressFile false None) _
              (or_intror (or_introl (ex_intro _ None eq_refl))) eq_refl)
    as (_ & _ & Hget & _ & Hn & _).
  split; [by rewrite Hget|exact Hn].
Defined.

(** * Further properties of resuming *)

Lemma saved_questions_fold_None (saved : list SavedQuestion) :
  foldl (fun acc q => m ← acc; t ← sq_text q; Some (<[t := q]> m)) None saved
  = @None (gmap string SavedQuestion).
Proof. by induction saved. Qed.

Lemma saved_questions_map_None (saved : list SavedQuestion) :
  saved_questions_map saved = None <-> Exists (fun e => sq_text e = None) saved.
Proof.
  unfold saved_questions_map. generalize (∅ : gmap string SavedQuestion).
  induction saved as [|e saved IH]; intros m; simpl.
  - split; [done|]. by intros ?%Exists_nil.
  - rewrite Exists_cons. destruct (sq_text e) as [x|]; simpl.
    + rewrite IH. split; [by right|]. by intros [|].
    + rewrite saved_questions_fold_None. split; [by left|done].
Qed.

(** X12: resuming is all or nothing.  Without a progress file, when the
    user declines, when the file is not JSON, when it has no list of
    questions, or when a single entry of that list has no text, the test
    stays exactly as decoded, cursor included.  Otherwise the stored
    progress is applied. *)
Theorem resume_all_or_nothing (t : Test) (store : ProgressStore) :
  (store = NoProgressFile \/
   (exists content, store = ProgressFile false content) \/
   store = ProgressFile true None \/
   (exists pd, store = ProgressFile true (Some pd) /\
               (pd_questions pd = None \/
                exists saved, pd_questions pd = Some saved /\
                              Exists (fun e => sq_text e = None) saved)) ->
   check_and_load_progress t store = t) /\
  (forall (pd : ProgressData) (saved : list SavedQuestion),
     store = ProgressFile true (Some pd) ->
     pd_questions pd = Some saved ->
     Forall (fun e => is_Some (sq_text e)) saved ->
     exists resumed : Test,
       restore_progress t pd = Some resumed /\
       check_and_load_progress t store = resumed /\
       current_question_index resumed = default 0%Z (pd_current_question_index pd)).
Proof.
  split.
  - intros [->|[[c ->]|[->|(pd & -> & Hpd)]]]; try done. simpl.
    unfold restore_progress.
    destruct Hpd as [->|(saved & -> & Hex)]; [done|]. simpl.
    apply saved_questions_map_None in Hex. by rewrite Hex.
  - intros pd saved -> Hsaved Hall. simpl. unfold restore_progress.
    rewrite Hsaved. simpl.
    destruct (saved_questions_map saved) as [m|] eqn:Hm.
    + simpl. by eexists.
    + apply saved_questions_map_None in Hm.
      apply Exists_exists in Hm as (e & He & Hnone).
      rewrite Forall_forall in Hall. destruct (Hall e He) as [x Hx]. congruence.
Qed.

Lemma resume_all_or_nothing_witness :
  check_and_load_progress (test_of [capital_question])
    (ProgressFile true (Some damaged_progress)) = test_of [capital_question].
Proof.
  destruct (resume_all_or_nothing (test_of [capital_question])
              (ProgressFile true (Some damaged_progress))) as [H _].
  apply H. right. right. right. eexists. split; [reflexivity|].
  right. eexists. split; [reflexivity|]. right. by left.
Defined.

(** X13: resuming is idempotent: applying the same progress data to the
    resumed test changes nothing. *)
Theorem restore_progress_idempotent (live resumed : Test) (pd : ProgressData) :
  restore_progress live pd = Some resumed ->
  restore_progress resumed pd = Some resumed.
Proof.
  unfold restore_progress.
  destruct (pd_questions pd) as [saved|]; [|done]. simpl.
  destruct (saved_questions_map saved) as [m|]; [|done]. simpl.
  intros [= <-]. simpl. do 2 f_equal.
  rewrite <- list_fmap_compose. apply list_fmap_ext. intros _ q _. simpl.
  destruct (m !! q_text q) as [data|] eqn:Hq; simpl; by rewrite Hq.
Qed.

Lemma restore_progress_idempotent_witness :
  restore_progress answered_capital_test (progress_data answered_capital_test)
    = Some answered_capital_test.
Proof.
  exact (restore_progress_idempotent (fresh_test answered_capital_test)
           answered_capital_test (progress_data answered_capital_test) eq_refl).
Defined.

(** * Further properties of submitting *)

Lemma on_submit_choice (t : Test) (q : Question) (controls : list Control) :
  get_current_question t = Some q ->
  q_type q <> ordering ->
  on_submit t controls =
    ((evaluate_answer t (choice_user_indices controls) None).1,
     Evaluated (bool_decide (choice_user_indices controls ≡ₚ correct_indices q))).
Proof.
  intros Hq Hty. unfold on_submit. rewrite Hq, decide_False by done.
  destruct (evaluate_answer_current t q (choice_user_indices controls) None Hq)
    as [Hv _].
  rewrite decide_False in Hv by done. rewrite Hv. simpl. do 2 f_equal.
  apply bool_decide_ext, py_sorted_Z_unique.
Qed.

(** X14: a choice answer is not validated: submitting with nothing marked
    is evaluated, and for a question with at least one correct index (every
    decoded question) it is judged incorrect and the question becomes
    answered with an empty answer. *)
Theorem empty_selection_is_wrong (t : Test) (q : Question) (controls : list Control) :
  get_current_question t = Some q ->
  q_type q <> ordering ->
  correct_indices q <> [] ->
  Forall (fun c => GetValue c = 0%Z) controls ->
  (on_submit t controls).2 = Evaluated false /\
  exists q' : Question,
    get_current_question (on_submit t controls).1 = Some q' /\
    answer_state q' = ([], [], true, Some false).
Proof.
  intros Hq Hty Hne Hzero.
  assert (choice_user_indices controls = []) as Hnil.
  { destruct (choice_user_indices controls) as [|i l] eqn:Hl; [done|].
    assert (i ∈ choice_user_indices controls) as Hi by (rewrite Hl; left).
    apply elem_of_choice_user_indices in Hi as (_ & c & Hc & Hv).
    rewrite Forall_forall in Hzero.
    destruct Hv. apply Hzero. by eapply list_elem_of_lookup_2. }
  rewrite (on_submit_choice t q) by done. rewrite Hnil. simpl.
  assert (bool_decide ([] ≡ₚ correct_indices q) = false) as ->.
  { apply bool_decide_eq_false. intros Hp. by apply Permutation_nil in Hp. }
  split; [done|].
  destruct (evaluate_answer_current t q [] None Hq) as [_ Hc].
  rewrite decide_False in Hc by done. rewrite Hc. eexists. split; [done|].
  unfold answer_state. simpl. do 2 f_equal.
  apply bool_decide_eq_false. intros Hs.
  change (py_sorted Z.leb [] = py_sorted Z.leb (correct_indices q)) in Hs.
  apply py_sorted_Z_unique in Hs. by apply Permutation_nil in Hs.
Qed.

Lemma empty_selection_is_wrong_witness :
  (on_submit (test_of [capital_question])
     [Toggle false; Toggle false; Toggle false]).2 = Evaluated false.
Proof.
  destruct (empty_selection_is_wrong (test_of [capital_question]) capital_question
              [Toggle false; Toggle false; Toggle false] eq_refl) as [H _].
  - discriminate.
  - discriminate.
  - by repeat constructor.
  - exact H.
Defined.

(** X15: a choice question one of whose correct indices is not the index of
    an option (the answer string has the marker at a position beyond the
    options) cannot be answered correctly: with one control per option
    every submission is judged incorrect. *)
Theorem choice_flag_beyond_options (t : Test) (q : Question)
    (controls : list Control) (i : Z) :
  get_current_question t = Some q ->
  q_type q <> ordering ->
  length controls = length (options q) ->
  i ∈ correct_indices q ->
  (Z.of_nat (length (options q)) <= i)%Z ->
  (on_submit t controls).2 = Evaluated false.
Proof.
  intros Hq Hty Hlen Hi Hbeyond.
  rewrite (on_submit_choice t q) by done. simpl. f_equal.
  apply bool_decide_eq_false. intros Hp.
  rewrite <- Hp in Hi. apply elem_of_choice_user_indices in Hi as (Hi & c & Hc & _).
  apply lookup_lt_Some in Hc. lia.
Qed.

Lemma choice_flag_beyond_options_witness :
  (on_submit (test_of [overflagged_question]) [Toggle true; Toggle false]).2
    = Evaluated false.
Proof.
  apply (choice_flag_beyond_options (test_of [overflagged_question])
           overflagged_question [Toggle true; Toggle false] 2%Z eq_refl).
  - discriminate.
  - reflexivity.
  - right. left.
  - simpl. lia.
Defined.

(** The correct indices the decoder builds for an ordering question are
    indices of options, each at most once, and no more than there are
    groups in the answer string. *)
Lemma traverse_length {A B} (f : A -> Result B) (l : list A) (k : list B) :
  traverse f l = Ok k -> length k = length l.
Proof.
  revert k. induction l as [|x l IH]; simpl; intros k Hk.
  - by injection Hk as <-.
  - destruct (f x); [|done]. simpl in Hk.
    destruct (traverse f l) as [k'|]; [|done]. simpl in Hk.
    injection Hk as <-. simpl. f_equal. by apply IH.
Qed.

Lemma ordering_correct_indices_bounds (num_options : Z) (code : string)
    (correct : list Z) :
  ordering_correct_indices num_options code = Ok correct ->
  Forall (fun i => 0 <= i < num_options)%Z correct /\
  (length correct <= length (wrap2 code))%nat.
Proof.
  unfold ordering_correct_indices.
  destruct (traverse _ _) as [positions|] eqn:Hpos; [|done]. simpl.
  intros [= <-]. apply traverse_length in Hpos. split.
  - apply Forall_forall. intros i Hi.
    rewrite py_sorted_Permutation, <- list_fmap_compose in Hi.
    apply list_elem_of_fmap in Hi as ([j p] & -> & Hin).
    apply list_elem_of_filter in Hin as [Hlt Hin].
    apply elem_of_enumerate in Hin as [Hj _]. simpl in *. lia.
  - rewrite !length_fmap, (Permutation_length (py_sorted_Permutation _ _)).
    rewrite length_fmap. etransitivity; [apply length_filter|].
    unfold enumerate. rewrite length_zip_with, length_seqZ. lia.
Qed.

(** X16: when an ordering question has fewer or more correct indices than
    options (the answer string has fewer groups than there are options),
    no submission is judged correct: with one number per option a
    submission is either rejected or incorrect.  The decoder never yields
    more correct indices than groups, and only indices of options. *)
Theorem ordering_short_key (t : Test) (q : Question) (controls : list Control) :
  get_current_question t = Some q ->
  q_type q = ordering ->
  length controls = length (options q) ->
  length (correct_indices q) <> length (options q) ->
  ((on_submit t controls).2 = InvalidAnswer \/
   (on_submit t controls).2 = Evaluated false) /\
  (forall code : string,
     ordering_correct_indices (Z.of_nat (length (options q))) code
       = Ok (correct_indices q) ->
     Forall (fun i => 0 <= i < Z.of_nat (length (options q)))%Z (correct_indices q) /\
     (length (correct_indices q) <= length (wrap2 code))%nat).
Proof.
  intros Hq Hty Hlen Hne. split; [|intros code; apply ordering_correct_indices_bounds].
  rewrite (on_submit_ordering t q) by done.
  case_decide; [|by left]. right. simpl. f_equal.
  apply bool_decide_eq_false. intros Heq. apply Hne.
  rewrite <- Heq, (Permutation_length (ordering_user_indices_Permutation _)).
  rewrite length_seqZ, length_fmap. lia.
Qed.

Lemma ordering_short_key_witness :
  (on_submit (test_of [short_key_question])
     [SpinCtrl 2; SpinCtrl 1; SpinCtrl 3]).2 = Evaluated false.
Proof.
  destruct (ordering_short_key (test_of [short_key_question]) short_key_question
              [SpinCtrl 2; SpinCtrl 1; SpinCtrl 3] eq_refl eq_refl eq_refl)
    as [[H|H] _].
  - discriminate.
  - discriminate H.
  - exact H.
Defined.

(** ** The answer key, entered as an answer *)

(** X17: marking exactly the options whose character in the answer string
    is the marker is judged correct, provided the answer string is no
    longer than the list of controls. *)
Theorem choice_answer_key_round_trip (t : Test) (q : Question) (code : string)
    (controls : list Control) :
  get_current_question t = Some q ->
  q_type q <> ordering ->
  correct_indices q = choice_correct_indices code ->
  (length (chars code) <= length controls)%nat ->
  (forall (i : nat) (c : Control),
     controls !! i = Some c ->
     (GetValue c <> 0%Z <-> chars code !! i = Some "2"%char)) ->
  (on_submit t controls).2 = Evaluated true.
Proof.
  intros Hq Hty Hcorrect Hlen Hmarks.
  rewrite (on_submit_choice t q) by done. simpl. f_equal.
  apply bool_decide_eq_true. rewrite Hcorrect.
  apply NoDup_Permutation.
  - apply choice_user_indices_NoDup.
  - apply choice_correct_indices_NoDup.
  - intros i. rewrite elem_of_choice_user_indices, elem_of_choice_correct_indices.
    unfold is_selected. split.
    + intros (Hi & c & Hc & Hv). split; [done|]. by apply (Hmarks _ c).
    + intros [Hi Hcode]. split; [done|].
      destruct (controls !! Z.to_nat i) as [c|] eqn:Hc.
      * exists c. split; [done|]. by apply (Hmarks (Z.to_nat i)).
      * apply lookup_ge_None in Hc. apply lookup_lt_Some in Hcode. lia.
Qed.

Lemma choice_answer_key_round_trip_witness :
  (on_submit (test_of [capital_question])
     [Toggle true; Toggle false; Toggle false]).2 = Evaluated true.
Proof.
  apply (choice_answer_key_round_trip (test_of [capital_question])
           capital_question "211" [Toggle true; Toggle false; Toggle false] eq_refl).
  - discriminate.
  - reflexivity.
  - simpl. lia.
  - intros [|[|[|i]]] c Hc; try discriminate; injection Hc as <-; simpl;
      split; intros; done.
Defined.

Lemma StronglySorted_weaken {A} (R1 R2 : relation A) (l : list A) :
  (forall x y, R1 x y -> R2 x y) -> StronglySorted R1 l -> StronglySorted R2 l.
Proof.
  intros HR. induction 1 as [|x l _ IH Hx]; constructor; [done|].
  eapply Forall_impl; [exact Hx|]. apply HR.
Qed.

Lemma value_at_positions (num_options : Z) (groups : list string) (i : Z) :
  value_at (group_position num_options <$> groups) i
  = position_at num_options groups i.
Proof.
  unfold value_at, position_at. rewrite list_lookup_fmap.
  by destruct (groups !! Z.to_nat i).
Qed.

(** X18: for an ordering question decoded from one 2-digit group per
    option, entering for every option the position its group stands for
    (the number of options for the group 00) is accepted and judged
    correct, provided these positions are pairwise distinct.  (The number
    controls hold the values from 1 to the number of options, line 414.) *)
Theorem ordering_answer_key_round_trip (t : Test) (q : Question)
    (groups : list string) :
  get_current_question t = Some q ->
  q_type q = ordering ->
  Forall two_digits groups ->
  length groups = length (options q) ->
  ordering_correct_indices (Z.of_nat (length groups)) (join groups)
    = Ok (correct_indices q) ->
  NoDup (group_position (Z.of_nat (length groups)) <$> groups) ->
  (on_submit t (SpinCtrl <$> (group_position (Z.of_nat (length groups)) <$> groups))).2
    = Evaluated true.
Proof.
  intros Hq Hty Hgroups Hlen Hcorrect Hnd.
  rewrite ordering_correct_indices_groups in Hcorrect by done.
  injection Hcorrect as Hcorrect.
  set (positions := group_position (Z.of_nat (length groups)) <$> groups) in *.
  assert (GetValue <$> (SpinCtrl <$> positions) = positions) as Hvalues.
  { rewrite <- list_fmap_compose. apply list_fmap_id. }
  rewrite (on_submit_ordering t q)
    by (rewrite ?length_fmap; unfold positions; rewrite ?length_fmap; done).
  rewrite Hvalues, decide_True by done. simpl. f_equal.
  apply bool_decide_eq_true. rewrite <- Hcorrect.
  destruct (sorted_positions_spec (Z.of_nat (length groups)) groups) as [Hperm Hsorted].
  fold positions in Hperm, Hsorted.
  apply (StronglySorted_unique_strong
           (fun i j => (value_at positions i <= value_at positions j)%Z)).
  - intros i j Hi Hj Hij Hji.
    rewrite ordering_user_indices_Permutation in Hi.
    rewrite Hperm in Hj.
    assert (length positions = length groups) as Hlp
      by (unfold positions; apply length_fmap).
    apply elem_of_seqZ in Hi, Hj.
    assert (value_at positions i = value_at positions j) as Heq by lia.
    unfold value_at in Heq.
    destruct (positions !! Z.to_nat i) as [pi|] eqn:Hpi;
      [|apply lookup_ge_None in Hpi; lia].
    destruct (positions !! Z.to_nat j) as [pj|] eqn:Hpj;
      [|apply lookup_ge_None in Hpj; lia].
    simpl in Heq. subst pj.
    pose proof (NoDup_lookup _ _ _ _ Hnd Hpi Hpj). lia.
  - apply ordering_user_indices_sorted.
  - eapply StronglySorted_weaken; [|exact Hsorted].
    intros i j Hr. unfold positions. rewrite !value_at_positions.
    unfold ranks_before in Hr. lia.
  - rewrite ordering_user_indices_Permutation, Hperm.
    unfold positions. by rewrite length_fmap.
Qed.

Lemma ordering_answer_key_round_trip_witness :
  (on_submit (test_of [abc_ordering_question])
     [SpinCtrl 2; SpinCtrl 1; SpinCtrl 3]).2 = Evaluated true.
Proof.
  apply (ordering_answer_key_round_trip (test_of [abc_ordering_question])
           abc_ordering_question ["02"; "01"; "00"] eq_refl eq_refl).
  - repeat constructor.
    + exists "0"%char, "2"%char. split; [reflexivity|]. vm_compute. lia.
    + exists "0"%char, "1"%char. split; [reflexivity|]. vm_compute. lia.
    + exists "0"%char, "0"%char. split; [reflexivity|]. vm_compute. lia.
  - reflexivity.
  - reflexivity.
  - by apply (bool_decide_unpack _).
Defined.

(** * Further properties of the view *)

(** ** The options listed for an incorrect answer *)

Lemma py_index_in_range {A} (l : list A) (i : Z) :
  (0 <= i < Z.of_nat (length l))%Z -> py_index l i = l !! Z.to_nat i.
Proof. intros Hi. unfold py_index. by rewrite decide_True by lia. Qed.

Lemma py_index_beyond {A} (l : list A) (i : Z) :
  (Z.of_nat (length l) <= i)%Z -> py_index l i = None.
Proof.
  intros Hi. unfold py_index. rewrite decide_True by lia.
  apply lookup_ge_None. lia.
Qed.

Lemma decode_question_node_ordering_range (images : gmap string (list Byte.byte))
    (node : Element) (q : Question) :
  decode_question_node images node = Ok (Some q) ->
  q_type q = ordering ->
  Forall (fun i => 0 <= i < Z.of_nat (length (options q)))%Z (correct_indices q).
Proof.
  unfold decode_question_node. intros H.
  destruct (find "t" node) as [type_tag|]; [|done].
  destruct (text type_tag) as [q_type_code|]; [|done].
  destruct (find "p" node) as [p_tag|]; [|done].
  destruct (find "c" node) as [answer_node|]; [|done].
  destruct (decide (q_type_code = "1")).
  - destruct (text answer_node) as [code|]; [|done]. simpl in H.
    destruct (node_options node); [done|].
    destruct (choice_correct_indices code) as [|c cs]; [done|].
    injection H as <-. simpl. by case_decide.
  - destruct (decide (q_type_code = "6")); [|done].
    destruct (text answer_node) as [code|]; [|done].
    destruct (ordering_correct_indices _ code) as [correct|] eqn:Hord; [|done].
    simpl in H. apply ordering_correct_indices_bounds in Hord as [Hrange _].
    destruct (ordering_options _) as [|o opts]; [done|].
    destruct correct; [done|]. by injection H as <-.
Qed.

(** X19: the list of correct options that the view shows after an
    incorrect answer is found by indexing the options with the correct
    indices.  When these are indices of options, as for every ordering
    question the decoder yields, the lookup succeeds, and if the correct
    indices are the option indices in some order it lists every option
    once.  When a correct index is not below the number of options the
    lookup raises [IndexError], for the ordered list as for the text of a
    choice question. *)
Theorem feedback_options_lookup (q : Question) :
  (Forall (fun i => 0 <= i < Z.of_nat (length (options q)))%Z (correct_indices q) ->
   ordered_options q
     = Some ((fun i => default "" (options q !! Z.to_nat i)) <$> correct_indices q) /\
   is_Some (correct_options_text q)) /\
  (correct_indices q ≡ₚ seqZ 0 (Z.of_nat (length (options q))) ->
   exists l, ordered_options q = Some l /\ l ≡ₚ options q) /\
  (forall i : Z,
     i ∈ correct_indices q -> (Z.of_nat (length (options q)) <= i)%Z ->
     ordered_options q = None /\ correct_options_text q = None) /\
  (forall (images : gmap string (list Byte.byte)) (node : Element),
     decode_question_node images node = Ok (Some q) -> q_type q = ordering ->
     is_Some (ordered_options q)).
Proof.
  assert (Forall (fun i => 0 <= i < Z.of_nat (length (options q)))%Z (correct_indices q) ->
          ordered_options q
            = Some ((fun i => default "" (options q !! Z.to_nat i))
                      <$> correct_indices q) /\
          is_Some (correct_options_text q)) as Hin.
  { intros Hall. unfold ordered_options, correct_options_text.
    induction Hall as [|i l Hi _ [IH1 IH2]]; [by split; [|eexists]|].
    assert (exists o, py_index (options q) i = Some o /\ options q !! Z.to_nat i = Some o)
      as (o & Ho & Hlook).
    { rewrite py_index_in_range by done.
      destruct (options q !! Z.to_nat i) as [o|] eqn:Ho; [by exists o|].
      apply lookup_ge_None in Ho. lia. }
    cbn. rewrite Ho, Hlook. cbn. rewrite IH1. cbn. split; [done|].
    destruct IH2 as [s Hs]. apply fmap_Some in Hs as (lines & -> & _).
    cbn. by eexists. }
  split; [exact Hin|]. split; [|split].
  - intros Hperm.
    assert (Forall (fun i => 0 <= i < Z.of_nat (length (options q)))%Z
              (correct_indices q)) as Hall.
    { apply Forall_forall. intros i Hi. rewrite Hperm in Hi.
      apply elem_of_seqZ in Hi. lia. }
    destruct (Hin Hall) as [-> _]. eexists. split; [done|].
    rewrite Hperm. clear.
    assert (forall (l : list string) (k : nat) (pre : list string),
              length pre = k ->
              (fun i => default "" ((pre ++ l) !! Z.to_nat i))
                <$> seqZ (Z.of_nat k) (Z.of_nat (length l)) = l) as Hseq.
    { induction l as [|x l IH]; intros k pre Hk; [done|].
      rewrite (seqZ_cons (Z.of_nat k)) by (simpl; lia). csimpl.
      rewrite Nat2Z.id, <- Hk, list_lookup_middle by done. simpl. f_equal.
      replace (Z.succ (Z.of_nat (length pre))) with (Z.of_nat (S (length pre))) by lia.
      replace (Z.pred (Z.of_nat (S (length l)))) with (Z.of_nat (length l)) by lia.
      replace (pre ++ x :: l) with ((pre ++ [x]) ++ l)
        by (by rewrite <- (assoc (++))).
      apply IH. rewrite length_app. simpl. lia. }
    pose proof (Hseq (options q) 0%nat [] eq_refl) as H.
    change ((fun i => default "" (options q !! Z.to_nat i))
              <$> seqZ 0 (Z.of_nat (length (options q))) = options q) in H.
    by rewrite H.
  - intros i Hi Hbeyond. unfold ordered_options, correct_options_text.
    assert (mapM (py_index (options q)) (correct_indices q) = None) as H1.
    { apply mapM_None_2, Exists_exists. exists i. split; [done|].
      by apply py_index_beyond. }
    assert (mapM (fun i => (fun o => "- " +:+ o) <$> py_index (options q) i)
              (correct_indices q) = None) as H2.
    { apply mapM_None_2, Exists_exists. exists i. split; [done|].
      by rewrite py_index_beyond. }
    by rewrite H1, H2.
  - intros images node Hdec Hty.
    destruct Hin as [-> _]; [|by eexists].
    by apply (decode_question_node_ordering_range images node).
Qed.

Lemma feedback_options_lookup_witness :
  ordered_options abc_ordering_question = Some ["B"; "A"; "C"] /\
  correct_options_text overflagged_question = None.
Proof.
  destruct (feedback_options_lookup abc_ordering_question) as [Hin _].
  destruct (feedback_options_lookup overflagged_question) as (_ & _ & Hout & _).
  split.
  - destruct Hin as [-> _]; [|reflexivity].
    repeat constructor; simpl; lia.
  - apply (Hout 2%Z); [right; left|simpl; lia].
Defined.

(** ** Clicking through a session *)

Lemma on_submit_keeps (t : Test) (controls : list Control) :
  static_part <$> questions (on_submit t controls).1 = static_part <$> questions t /\
  title (on_submit t controls).1 = title t /\
  current_question_index (on_submit t controls).1 = current_question_index t.
Proof.
  assert (forall a r,
            static_part <$> questions (evaluate_answer t a r).1
              = static_part <$> questions t /\
            title (evaluate_answer t a r).1 = title t /\
            current_question_index (evaluate_answer t a r).1
              = current_question_index t) as Heval.
  { intros a r. unfold evaluate_answer.
    destruct (get_current_question t) as [q|] eqn:Hq; simpl; [|done].
    apply get_current_question_Some in Hq as [_ Hq].
    split; [|done]. rewrite list_fmap_insert. apply list_insert_id.
    by rewrite list_lookup_fmap, Hq. }
  unfold on_submit. destruct (get_current_question t); [|done].
  repeat case_decide; simpl; try done; apply Heval.
Qed.



(** * Further properties of the decoder: images *)

Lemma decode_image_entry (b64decode : string -> option (list Byte.byte))
    (images : gmap string (list Byte.byte)) (img_node : Element) :
  decode_image b64decode images img_node =
    match image_entry b64decode img_node with
    | Some (img_key, image_bytes) => <[img_key := image_bytes]> images
    | None => images
    end.
Proof.
  unfold decode_image, image_entry.
  destruct (attrib img_node !! "p") as [key|]; [|done].
  destruct (text img_node) as [payload|]; [|done]. simpl.
  destruct (decide (key = "" \/ payload = "")) as [[->| ->]|Hne].
  - done.
  - by rewrite andb_false_r.
  - rewrite !bool_decide_eq_true_2 by tauto. simpl.
    destruct (after_first "," (chars payload)) as [data|]; [|done]. simpl.
    by destruct (b64decode (str data)).
Qed.

Lemma decode_images_fold (b64decode : string -> option (list Byte.byte))
    (nodes : list Element) (images : gmap string (list Byte.byte)) (k : string) :
  foldl (decode_image b64decode) images nodes !! k =
    match last (omap (fun node => e ← image_entry b64decode node;
                                   if decide (e.1 = k) then Some e.2 else None)
                  nodes) with
    | Some image_bytes => Some image_bytes
    | None => images !! k
    end.
Proof.
  revert images. induction nodes as [|n nodes IH]; intros images; [done|].
  simpl. rewrite IH, decode_image_entry.
  destruct (image_entry b64decode n) as [[key bytes]|]; simpl; [|done].
  destruct (decide (key = k)) as [->|Hne].
  - rewrite last_cons, lookup_insert_eq. by destruct (last _).
  - rewrite lookup_insert_ne by done. done.
Qed.

(** X23: the image table holds, under each key, the bytes of the last
    image node with that key that has a payload with a comma whose part
    after the first comma decodes; a node that lacks the key or the
    payload, or whose payload does not decode, changes nothing, and
    without the image container the table is empty.  A question node gets
    the bytes stored under the key its reference names, and no image when
    it has no reference or the key is not in the table. *)
Theorem image_table_last_decodable (b64decode : string -> option (list Byte.byte))
    (root : Element) :
  (find "i" root = None -> decode_images b64decode root = ∅) /\
  (forall (container : Element) (k : string),
     find "i" root = Some container ->
     decode_images b64decode root !! k =
       last (omap (fun node => e ← image_entry b64decode node;
                               if decide (e.1 = k) then Some e.2 else None)
               (findall "i" container))) /\
  (forall (images : gmap string (list Byte.byte)) (img_node : Element),
     image_entry b64decode img_node = None ->
     decode_image b64decode images img_node = images) /\
  (forall question_node : Element,
     (find "b" question_node = None ->
      node_image (decode_images b64decode root) question_node = None) /\
     (forall (ref : Element) (k : string),
        find "b" question_node = Some ref -> attrib ref !! "p" = Some k ->
        k <> "" ->
        node_image (decode_images b64decode root) question_node
          = decode_images b64decode root !! k)).
Proof.
  split; [|split; [|split]].
  - intros H. unfold decode_images. by rewrite H.
  - intros container k H. unfold decode_images. rewrite H.
    rewrite decode_images_fold, lookup_empty. by destruct (last _).
  - intros images img_node H. by rewrite decode_image_entry, H.
  - intros question_node. unfold node_image. split.
    + by intros ->.
    + intros ref k -> -> Hk. by rewrite decide_False.
Qed.

Lemma image_table_last_decodable_witness :
  decode_images b64_sample image_bank !! "a" = Some [Byte.x42] /\
  decode_images b64_sample image_bank !! "b" = None.
Proof.
  destruct (image_table_last_decodable b64_sample image_bank) as (_ & H & _).
  split.
  - by rewrite (H (el "i" None [image_node "a" "data:image/png;base64,QQ==";
                                image_node "b" "no comma";
                                image_node "a" "data:image/png;base64,Qg=="]) "a"
                  eq_refl).
  - by rewrite (H (el "i" None [image_node "a" "data:image/png;base64,QQ==";
                                image_node "b" "no comma";
                                image_node "a" "data:image/png;base64,Qg=="]) "b"
                  eq_refl).
Defined.

(** * Further properties: the summary and the shape of decoded questions *)

(** X24: in the summary the questions offered for retry are all questions
    but the correct ones: their number and the number of correct answers
    add up to the total.  The incorrect answers counted are among them,
    and when every question stores a verdict exactly if it is answered the
    rest of them are the unanswered questions. *)
Theorem summary_counts (t : Test) :
  (length (questions t) = num_correct t + length (incorrect_questions t))%nat /\
  (num_incorrect t <= length (incorrect_questions t))%nat /\
  (Forall state_agrees (questions t) ->
   (length (incorrect_questions t) + num_answered t
    = num_incorrect t + length (questions t))%nat).
Proof.
  unfold num_correct, num_incorrect, num_answered, incorrect_questions.
  induction (questions t) as [|q qs (IH1 & IH2 & IH3)]; [done|].
  rewrite !filter_cons. split; [|split].
  - repeat case_decide; simpl; try lia; done.
  - repeat case_decide; simpl; try lia. congruence.
  - intros [Hq Hqs]%Forall_cons. specialize (IH3 Hqs).
    unfold state_agrees in Hq.
    destruct (is_answered q), (is_correct q) as [[]|];
      repeat case_decide; simpl; try done; try lia;
      exfalso; intuition congruence.
Qed.

Lemma summary_counts_witness :
  (length (incorrect_questions answered_capital_test)
   + num_answered answered_capital_test
   = num_incorrect answered_capital_test
     + length (questions answered_capital_test))%nat.
Proof.
  destruct (summary_counts answered_capital_test) as (_ & _ & H).
  apply H. unfold state_agrees.
  repeat constructor; simpl; intros; done.
Defined.

Lemma decode_question_node_shape (images : gmap string (list Byte.byte))
    (node : Element) (q : Question) :
  decode_question_node images node = Ok (Some q) ->
  (q_type q = single -> length (correct_indices q) = 1%nat) /\
  (q_type q = multiple -> (2 <= length (correct_indices q))%nat) /\
  Forall (fun i => 0 <= i)%Z (correct_indices q).
Proof.
  unfold decode_question_node. intros H.
  destruct (find "t" node) as [type_tag|]; [|done].
  destruct (text type_tag) as [q_type_code|]; [|done].
  destruct (find "p" node) as [p_tag|]; [|done].
  destruct (find "c" node) as [answer_node|]; [|done].
  destruct (decide (q_type_code = "1")).
  - destruct (text answer_node) as [code|]; [|done]. simpl in H.
    destruct (node_options node); [done|].
    destruct (choice_correct_indices code) as [|c cs] eqn:Hc; [done|].
    injection H as <-. simpl.
    split; [by case_decide|]. split; [case_decide; [done|]; simpl in *; lia|].
    rewrite <- Hc. apply Forall_forall. intros i Hi.
    by apply elem_of_choice_correct_indices in Hi as [Hi _].
  - destruct (decide (q_type_code = "6")); [|done].
    destruct (text answer_node) as [code|]; [|done].
    destruct (ordering_correct_indices _ code) as [correct|] eqn:Hord; [|done].
    simpl in H. apply ordering_correct_indices_bounds in Hord as [Hrange _].
    destruct (ordering_options _) as [|o opts]; [done|].
    destruct correct as [|c cs]; [done|]. injection H as <-. simpl.
    split; [done|]. split; [done|].
    eapply Forall_impl; [exact Hrange|]. simpl. lia.
Qed.

(** X25: in every decoded Test the title is not empty, a Single question
    has exactly one correct index and a Multiple question at least two,
    the correct indices of a question are pairwise distinct and not
    negative, and those of an Ordering question are indices of its
    options. *)
Theorem decoded_test_shape (b64decode : string -> option (list Byte.byte))
    (root : Element) (t : Test) :
  decode b64decode root = Ok (inr t) ->
  title t <> "" /\
  Forall (fun q =>
            (q_type q = single -> length (correct_indices q) = 1%nat) /\
            (q_type q = multiple -> (2 <= length (correct_indices q))%nat) /\
            (q_type q = ordering ->
             Forall (fun i => i < Z.of_nat (length (options q)))%Z
               (correct_indices q)) /\
            NoDup (correct_indices q) /\
            Forall (fun i => 0 <= i)%Z (correct_indices q))
    (questions t).
Proof.
  unfold decode. intros H.
  destruct (find_desc "p" "t" root) as [title_node|]; [|done].
  destruct (find "c" root) as [container|]; [|done].
  destruct (decode_questions _ _) as [qs|] eqn:Hqs; [|done]. simpl in H.
  destruct qs as [|q0 qs]; [done|]. injection H as <-. simpl. split.
  - destruct (text title_node) as [s|]; [|done]. by case_decide.
  - apply Forall_forall. intros q Hq.
    apply (decode_questions_elem _ _ _ Hqs) in Hq as (node & _ & Hnode).
    destruct (decode_question_node_shape _ _ _ Hnode) as (Hs & Hm & Hpos).
    split; [done|]. split; [done|]. split.
    + intros Hty. eapply Forall_impl;
        [exact (decode_question_node_ordering_range _ _ _ Hnode Hty)|].
      simpl. lia.
    + split; [by apply (decode_question_node_NoDup _ _ _ Hnode)|done].
Qed.

Lemma decoded_test_shape_witness :
  title {| questions := [capital_question]; current_question_index := 0;
           title := "Practice Test" |} <> "".
Proof.
  by destruct (decoded_test_shape (fun _ => None) empty_title_bank
                 {| questions := [capital_question]; current_question_index := 0;
                    title := "Practice Test" |} eq_refl) as [H _].
Defined.

(** * The buttons of the frame *)

(** ** When a refresh completes *)

Lemma well_keyed_lookups (q : Question) :
  well_keyed q ->
  is_Some (ordered_options q) /\ is_Some (correct_options_text q).
Proof.
  unfold well_keyed, ordered_options, correct_options_text.
  induction 1 as [|i l [o Ho] _ [[os Hos] [s Hs]]]; [split; by eexists|].
  apply fmap_Some in Hs as (lines & Hlines & _).
  cbn. rewrite Ho. cbn. rewrite Hos, Hlines. cbn. split; by eexists.
Qed.

Lemma question_ok_no_raise (q : Question) :
  question_ok q -> controls_raise q = false /\ feedback_raises q = false.
Proof.
  intros [Hkey Hfit]. apply well_keyed_lookups in Hkey as [[os Hos] [s Hs]].
  unfold controls_raise, feedback_raises. split.
  - destruct (decide (q_type q = ordering)) as [Hty|Hty];
      [|by rewrite (bool_decide_eq_false_2 _ Hty)].
    destruct (is_answered q) eqn:Ha; [|by rewrite andb_false_r].
    destruct (Hfit Hty Ha) as [Hnil|Hlen].
    + rewrite (bool_decide_eq_false_2 (user_input q <> [])) by (by intros []).
      by rewrite andb_false_r.
    + rewrite (bool_decide_eq_false_2 (_ < _)%nat) by lia.
      by rewrite andb_false_r.
  - rewrite Hos, Hs. case_decide; by rewrite andb_false_r.
Qed.

Lemma current_question_ok (t : Test) (q : Question) :
  Forall question_ok (questions t) -> get_current_question t = Some q ->
  question_ok q.
Proof.
  intros Hall Hq. apply get_current_question_Some in Hq as [_ Hq].
  rewrite Forall_forall in Hall. by eapply Hall, list_elem_of_lookup_2.
Qed.

Lemma in_sync_synced_frame (f : Frame) : in_sync f <-> f = synced_frame (frame_test f).
Proof.
  unfold in_sync, synced_frame. destruct f as [t b]. simpl. split.
  - by intros ->.
  - by intros [= <-].
Qed.

Lemma update_view_test (f : Frame) : frame_test (update_view f) = frame_test f.
Proof.
  unfold update_view, update_feedback_and_nav.
  destruct (get_current_question (frame_test f)) as [q|]; [|done].
  destruct (controls_raise q); [done|]. by destruct (feedback_raises q).
Qed.

Lemma update_view_completes (f : Frame) :
  Forall question_ok (questions (frame_test f)) ->
  update_view f = synced_frame (frame_test f).
Proof.
  intros Hall. unfold update_view, update_feedback_and_nav, synced_frame.
  destruct (get_current_question (frame_test f)) as [q|] eqn:Hq; [|done].
  destruct (question_ok_no_raise q (current_question_ok _ _ Hall Hq)) as [-> ->].
  done.
Qed.

(** What the state of an enabled button tells about a frame in sync. *)
Lemma in_sync_buttons (f : Frame) :
  in_sync f ->
  (submit_button (frame_buttons f) = true ->
   exists q, get_current_question (frame_test f) = Some q /\ is_answered q = false) /\
  (next_button (frame_buttons f) = true -> (next_question (frame_test f)).2 = true) /\
  (prev_button (frame_buttons f) = true ->
   (previous_question (frame_test f)).2 = true).
Proof.
  unfold in_sync. intros ->.
  destruct (get_current_question (frame_test f)) as [q|]; simpl; [|done].
  split; [|split].
  - intros Hs. exists q. split; [done|]. by destruct (is_answered q).
  - intros H%bool_decide_eq_true. unfold next_question. by rewrite decide_True.
  - intros H%bool_decide_eq_true. unfold previous_question. by rewrite decide_True.
Qed.

(** ** What a submission keeps *)

Lemma distinct_count_le (values : list Z) :
  (distinct_count values <= length values)%nat.
Proof.
  unfold distinct_count. induction values as [|x l IH]; simpl; [lia|].
  destruct (decide_rel _ _ _); simpl; lia.
Qed.

Lemma on_submit_question_ok (t : Test) (controls : list Control) :
  Forall question_ok (questions t) ->
  Forall question_ok (questions (on_submit t controls).1).
Proof.
  intros Hall. unfold on_submit.
  destruct (get_current_question t) as [q|] eqn:Hq; [|done].
  destruct (current_question_ok t q Hall Hq) as [Hkey Hfit].
  assert (forall a r,
            (q_type q = ordering ->
             exists v, r = Some v /\ (length (options q) <= length v)%nat) ->
            Forall question_ok (questions (evaluate_answer t a r).1)) as Heval.
  { intros a r Hr. unfold evaluate_answer. rewrite Hq. simpl.
    apply Forall_insert; [done|]. split; [exact Hkey|].
    unfold raw_input_fits. simpl. intros Hty _.
    destruct (Hr Hty) as (v & -> & Hv). by right. }
  destruct (decide (q_type q = ordering)) as [Hty|Hty].
  - destruct (decide (distinct_count (GetValue <$> controls) <> length (options q)))
      as [Hd|Hd]; [done|].
    simpl. apply Heval. intros _.
    eexists. split; [done|].
    apply dec_stable in Hd. rewrite <- Hd. apply distinct_count_le.
  - simpl. by apply Heval.
Qed.

Lemma on_submit_evaluated (t : Test) (controls : list Control) (v : bool) :
  (on_submit t controls).2 = Evaluated v ->
  is_Some (get_current_question (on_submit t controls).1).
Proof.
  unfold on_submit.
  destruct (get_current_question t) as [q|] eqn:Hq; [|done].
  assert (forall a r, is_Some (get_current_question (evaluate_answer t a r).1)) as H.
  { intros a r. destruct (evaluate_answer_current t q a r Hq) as [_ ->]. by eexists. }
  repeat case_decide; simpl; try done; intros _; apply H.
Qed.

Lemma frame_on_submit_test (f : Frame) (controls : list Control) :
  frame_test (frame_on_submit f controls) = (on_submit (frame_test f) controls).1.
Proof.
  unfold frame_on_submit.
  destruct ((on_submit (frame_test f) controls).2) eqn:Hout.
  - unfold on_submit in *.
    destruct (get_current_question (frame_test f)) as [q|] eqn:Hq; [|done].
    destruct (evaluate_answer_current (frame_test f) q
                (ordering_user_indices (GetValue <$> controls))
                (Some (GetValue <$> controls)) Hq) as [Hv1 _].
    destruct (evaluate_answer_current (frame_test f) q
                (choice_user_indices controls) None Hq) as [Hv2 _].
    repeat case_decide; simpl in *; try done;
      rewrite ?Hv1, ?Hv2 in Hout; done.
  - unfold on_submit in *.
    destruct (get_current_question (frame_test f)) as [q|] eqn:Hq; [|done].
    destruct (evaluate_answer_current (frame_test f) q
                (ordering_user_indices (GetValue <$> controls))
                (Some (GetValue <$> controls)) Hq) as [Hv1 _].
    destruct (evaluate_answer_current (frame_test f) q
                (choice_user_indices controls) None Hq) as [Hv2 _].
    repeat case_decide; simpl in *; try done;
      rewrite ?Hv1, ?Hv2 in Hout; done.
  - destruct (get_current_question _) as [q'|]; [|done].
    unfold update_feedback_and_nav. by destruct (feedback_raises q').
Qed.

Lemma frame_on_next_test (f : Frame) (retry : bool) :
  frame_test (frame_on_next f retry) = on_next (frame_test f) retry.
Proof.
  unfold frame_on_next, on_next.
  destruct ((next_question (frame_test f)).2); [by rewrite update_view_test|].
  destruct (incorrect_questions (frame_test f)); [done|].
  destruct retry; [by rewrite update_view_test|done].
Qed.

Lemma frame_on_prev_test (f : Frame) :
  frame_test (frame_on_prev f) = on_prev (frame_test f).
Proof.
  unfold frame_on_prev, on_prev, previous_question.
  case_decide; simpl; [by rewrite update_view_test|done].
Qed.

(** ** A frame in sync behaves as [click] says *)

Lemma in_sync_synced (t : Test) : in_sync (synced_frame t).
Proof. done. Qed.

Lemma in_sync_button_states (f : Frame) :
  in_sync f ->
  submit_button (frame_buttons f) = submit_button_enabled (frame_test f) /\
  next_button (frame_buttons f) = next_button_enabled (frame_test f) /\
  prev_button (frame_buttons f) = prev_button_enabled (frame_test f).
Proof.
  unfold in_sync, submit_button_enabled, next_button_enabled, prev_button_enabled.
  intros ->. by destruct (get_current_question (frame_test f)).
Qed.

Lemma frame_click_in_sync (f : Frame) (c : Click) :
  in_sync f -> frame_test (frame_click f c) = click (frame_test f) c.
Proof.
  intros Hs. destruct (in_sync_button_states f Hs) as (Hsub & Hn & Hp).
  destruct c as [controls|retry|]; simpl; unfold click_submit;
    rewrite <- ?Hsub, <- ?Hn, <- ?Hp.
  - destruct (submit_button _); [apply frame_on_submit_test|done].
  - destruct (next_button _); [apply frame_on_next_test|done].
  - destruct (prev_button _); [apply frame_on_prev_test|done].
Qed.

(** ** The refreshes of a frame whose questions never make one raise *)

Lemma update_view_ok (f : Frame) :
  Forall question_ok (questions (frame_test f)) -> frame_ok (update_view f).
Proof.
  intros Hall. rewrite (update_view_completes f Hall). split; [done|exact Hall].
Qed.

Lemma reset_answer_ok (q : Question) : question_ok q -> question_ok (reset_answer q).
Proof. intros [Hkey _]. split; [exact Hkey|]. by intros _ [=]. Qed.

Lemma retry_incorrect_ok (t : Test) :
  Forall question_ok (questions t) ->
  Forall question_ok (questions (retry_incorrect t (incorrect_questions t))).
Proof.
  intros Hall. simpl. rewrite Forall_fmap. unfold incorrect_questions.
  rewrite Forall_forall in Hall. apply Forall_forall.
  intros q [_ Hq]%list_elem_of_filter. by apply reset_answer_ok, Hall.
Qed.

Lemma frame_on_submit_ok (f : Frame) (controls : list Control) :
  frame_ok f -> frame_ok (frame_on_submit f controls).
Proof.
  intros [Hs Hall].
  pose proof (on_submit_question_ok _ controls Hall) as Hall'.
  unfold frame_on_submit.
  destruct ((on_submit (frame_test f) controls).2) as [| |v] eqn:Hout;
    [by split|by split|].
  destruct (on_submit_evaluated _ _ _ Hout) as [q' Hq']. rewrite Hq'.
  unfold update_feedback_and_nav.
  destruct (question_ok_no_raise q' (current_question_ok _ _ Hall' Hq')) as [_ ->].
  split; [|exact Hall']. unfold in_sync. simpl. by rewrite Hq'.
Qed.

Lemma frame_on_next_ok (f : Frame) (retry : bool) :
  frame_ok f -> frame_ok (frame_on_next f retry).
Proof.
  intros [Hs Hall]. unfold frame_on_next.
  destruct ((next_question (frame_test f)).2) eqn:Hn.
  - apply update_view_ok. simpl. unfold next_question. by case_decide.
  - destruct (incorrect_questions (frame_test f)) eqn:Hinc; [by split|].
    destruct retry; [|by split].
    apply update_view_ok. rewrite <- Hinc. by apply retry_incorrect_ok.
Qed.

Lemma frame_on_prev_ok (f : Frame) : frame_ok f -> frame_ok (frame_on_prev f).
Proof.
  intros [Hs Hall]. unfold frame_on_prev, previous_question.
  case_decide; simpl; [|by split]. by apply update_view_ok.
Qed.

Lemma frame_click_ok (f : Frame) (c : Click) :
  frame_ok f -> frame_ok (frame_click f c).
Proof.
  intros Hok. destruct c as [controls|retry|]; simpl.
  - destruct (submit_button _); [by apply frame_on_submit_ok|done].
  - destruct (next_button _); [by apply frame_on_next_ok|done].
  - destruct (prev_button _); [by apply frame_on_prev_ok|done].
Qed.

Lemma frame_clicks_ok (f : Frame) (clicks : list Click) :
  frame_ok f ->
  frame_ok (foldl frame_click f clicks) /\
  frame_test (foldl frame_click f clicks) = foldl click (frame_test f) clicks.
Proof.
  revert f. induction clicks as [|c clicks IH]; intros f Hok; [done|]. simpl.
  destruct (IH (frame_click f c) (frame_click_ok f c Hok)) as [Hok' ->].
  split; [done|]. by rewrite (frame_click_in_sync f c (proj1 Hok)).
Qed.

(** ** What the clicks of a view in step keep *)

Lemma click_submit_answered (t : Test) (i : nat) (q : Question)
    (controls : list Control) :
  questions t !! i = Some q -> is_answered q = true ->
  questions (click_submit t controls) !! i = Some q.
Proof.
  intros Hi Hans. unfold click_submit, submit_button_enabled.
  destruct (get_current_question t) as [q0|] eqn:Hq0; [|done].
  destruct (is_answered q0) eqn:Hans0; [done|]. simpl.
  apply get_current_question_Some in Hq0 as [_ Hq0].
  destruct (on_submit_questions t controls) as [->|[q' ->]]; [done|].
  rewrite list_lookup_insert_ne; [done|].
  intros <-. congruence.
Qed.

(** While the next button is enabled there is a next question. *)
Lemma click_next_moves (t : Test) (retry : bool) :
  next_button_enabled t = true -> on_next t retry = (next_question t).1.
Proof.
  unfold next_button_enabled, on_next, next_question.
  destruct (get_current_question t); [|done].
  intros H%bool_decide_eq_true. by rewrite decide_True.
Qed.

Lemma click_answered (t : Test) (i : nat) (q : Question) (c : Click) :
  questions t !! i = Some q -> is_answered q = true ->
  questions (click t c) !! i = Some q.
Proof.
  intros Hi Hans. destruct c as [controls|retry|]; simpl.
  - by apply click_submit_answered.
  - destruct (next_button_enabled t) eqn:Hn; [|done].
    rewrite click_next_moves by done. unfold next_question. by case_decide.
  - destruct (prev_button_enabled t); [|done].
    unfold on_prev, previous_question. by case_decide.
Qed.

Lemma clicks_answered (t : Test) (i : nat) (q : Question) (clicks : list Click) :
  questions t !! i = Some q -> is_answered q = true ->
  questions (foldl click t clicks) !! i = Some q.
Proof.
  revert t. induction clicks as [|c clicks IH]; intros t Hi Hans; [done|].
  simpl. apply IH; [|done]. by apply click_answered.
Qed.

Lemma click_keeps (t : Test) (c : Click) :
  static_part <$> questions (click t c) = static_part <$> questions t /\
  title (click t c) = title t /\
  (cursor_in_range t -> cursor_in_range (click t c)).
Proof.
  destruct c as [controls|retry|]; simpl.
  - unfold click_submit. destruct (submit_button_enabled t); [|done].
    destruct (on_submit_keeps t controls) as (Hs & Ht & Hc).
    split; [done|]. split; [done|]. unfold cursor_in_range.
    assert (length (questions (on_submit t controls).1) = length (questions t))
      as Hl.
    { rewrite <- (length_fmap static_part (questions (on_submit t controls).1)).
      by rewrite Hs, length_fmap. }
    by rewrite Hc, Hl.
  - destruct (next_button_enabled t) eqn:Hn; [|done].
    rewrite click_next_moves by done. unfold next_question, cursor_in_range.
    case_decide; simpl; [|done]. repeat split; try done; lia.
  - destruct (prev_button_enabled t); [|done].
    unfold on_prev, previous_question, cursor_in_range.
    case_decide; simpl; [|done]. repeat split; try done; lia.
Qed.

Lemma clicks_keep (t : Test) (clicks : list Click) :
  static_part <$> questions (foldl click t clicks) = static_part <$> questions t /\
  title (foldl click t clicks) = title t /\
  (cursor_in_range t -> cursor_in_range (foldl click t clicks)).
Proof.
  revert t. induction clicks as [|c clicks IH]; intros t; [done|]. simpl.
  destruct (IH (click t c)) as (Hs & Ht & Hc).
  destruct (click_keeps t c) as (Hs' & Ht' & Hc').
  split; [by rewrite Hs|]. split; [by rewrite Ht|]. auto.
Qed.

Lemma frame_click_title (f : Frame) (c : Click) :
  title (frame_test (frame_click f c)) = title (frame_test f).
Proof.
  destruct c as [controls|retry|]; simpl.
  - destruct (submit_button _); [|done]. rewrite frame_on_submit_test.
    by destruct (on_submit_keeps (frame_test f) controls) as (_ & -> & _).
  - destruct (next_button _); [|done]. rewrite frame_on_next_test.
    unfold on_next, next_question. case_decide; simpl; [done|].
    destruct (incorrect_questions (frame_test f)); [done|]. by destruct retry.
  - destruct (prev_button _); [|done]. rewrite frame_on_prev_test.
    unfold on_prev, previous_question. by case_decide.
Qed.

(** ** Submitting again, through the view *)

(** C7, amended: the view is what keeps an answered question as it is, as
    long as its buttons are in step with the test.  In a frame in sync the
    submit button is disabled while the current question is answered, so a
    click on it changes nothing, and no click on any of the three buttons
    changes an answered question.  When moreover no question can make a
    refresh raise (every correct index is an index of the options, and the
    raw input of an answered ordering question is empty or has a number
    for every option), the frame stays in sync and no sequence of clicks
    changes an answered question.  Moving to the next or the previous
    question never changes a question.  The controller itself does not
    refuse: [evaluate_answer] on an answered current question stores the
    new answer and a new verdict.  [retry_incorrect] returns the questions
    it is given to the unanswered state.  Without the condition on the
    questions the view does not guard: [overflagged_bank] decodes to
    [overflagged_test], whose second question has a correct index beyond
    its options; from the frame in sync for it, the second click of
    [stale_trace] answers that question and the refresh raises, and the
    remaining clicks reach [retry_incorrect], which returns it to the
    unanswered state. *)
Theorem answered_question_guarded_by_view (f : Frame) (i : nat) (q : Question) :
  questions (frame_test f) !! i = Some q ->
  is_answered q = true ->
  (in_sync f -> get_current_question (frame_test f) = Some q ->
   submit_button (frame_buttons f) = false /\
   forall controls : list Control, frame_click f (ClickSubmit controls) = f) /\
  (in_sync f -> forall c : Click,
     questions (frame_test (frame_click f c)) !! i = Some q) /\
  (frame_ok f -> forall clicks : list Click,
     frame_ok (foldl frame_click f clicks) /\
     questions (frame_test (foldl frame_click f clicks)) !! i = Some q) /\
  questions (next_question (frame_test f)).1 !! i = Some q /\
  questions (previous_question (frame_test f)).1 !! i = Some q /\
  (get_current_question (frame_test f) = Some q ->
   forall (user_answer : list Z) (raw : option (list Z)),
   exists q' : Question,
     get_current_question (evaluate_answer (frame_test f) user_answer raw).1
       = Some q' /\
     user_answer_indices q' = user_answer /\
     user_input q' = default user_answer raw /\
     is_answered q' = true /\
     is_correct q' = (evaluate_answer (frame_test f) user_answer raw).2) /\
  (forall subset : list Question,
     Forall (fun q' => answer_state q' = ([], [], false, None))
       (questions (retry_incorrect (frame_test f) subset))) /\
  (decode (fun _ => None) overflagged_bank = Ok (inr overflagged_test) /\
   in_sync (synced_frame overflagged_test) /\
   exists q1 : Question,
     questions (frame_test (foldl frame_click (synced_frame overflagged_test)
                              (take 2 stale_trace))) !! 1%nat = Some q1 /\
     is_answered q1 = true /\
     questions (frame_test (foldl frame_click (synced_frame overflagged_test)
                              stale_trace)) !! 1%nat = Some (reset_answer q1)).
Proof.
  intros Hi Hans.
  split; [|split; [|split; [|split; [|split; [|split; [|split]]]]]].
  - intros Hs Hq.
    assert (submit_button (frame_buttons f) = false) as Hsub.
    { rewrite Hs, Hq. simpl. by rewrite Hans. }
    split; [done|]. intros controls. simpl. by rewrite Hsub.
  - intros Hs c. rewrite (frame_click_in_sync f c Hs). by apply click_answered.
  - intros Hok clicks. destruct (frame_clicks_ok f clicks Hok) as [Hok' ->].
    split; [done|]. by apply clicks_answered.
  - unfold next_question. by case_decide.
  - unfold previous_question. by case_decide.
  - intros Hq user_answer raw.
    destruct (evaluate_answer_current (frame_test f) q user_answer raw Hq)
      as [Hv Hc].
    eexists. split; [exact Hc|]. by rewrite Hv.
  - intros subset. simpl. rewrite Forall_fmap. by apply Forall_true.
  - split; [by vm_compute|]. split; [done|].
    eexists. split; [by vm_compute|]. split; by vm_compute.
Qed.

Lemma answered_question_guarded_by_view_witness :
  frame_click (synced_frame answered_capital_test)
    (ClickSubmit [Toggle false; Toggle true; Toggle false])
    = synced_frame answered_capital_test.
Proof.
  destruct (answered_question_guarded_by_view (synced_frame answered_capital_test) 0
              (mkQuestion "Capital of France?" single ["Paris"; "London"; "Rome"]
                 [0%Z] None [0%Z] [0%Z] true (Some true)) eq_refl eq_refl)
    as (Hcur & _).
  destruct (Hcur eq_refl eq_refl) as [_ H]. apply H.
Defined.

(** ** Clicks and the bank *)

(** X20: the title survives every click.  In a frame in sync no click on
    one of the three buttons changes what the questions are (text, type,
    options, correct indices, image), their number or their order, and a
    cursor that points at a question keeps pointing at one; when no
    question can make a refresh raise this holds of every sequence of
    clicks, and the frame stays in sync.  It does not hold without that
    condition: from the frame in sync for [overflagged_test] the clicks of
    [stale_trace_after_correct] leave one question of the two. *)
Theorem clicks_keep_the_bank (f : Frame) (clicks : list Click) :
  title (frame_test (foldl frame_click f clicks)) = title (frame_test f) /\
  (in_sync f -> forall c : Click,
     static_part <$> questions (frame_test (frame_click f c))
       = static_part <$> questions (frame_test f) /\
     (cursor_in_range (frame_test f) ->
      cursor_in_range (frame_test (frame_click f c)))) /\
  (frame_ok f ->
     frame_ok (foldl frame_click f clicks) /\
     static_part <$> questions (frame_test (foldl frame_click f clicks))
       = static_part <$> questions (frame_test f) /\
     (cursor_in_range (frame_test f) ->
      cursor_in_range (frame_test (foldl frame_click f clicks)))) /\
  (length (questions overflagged_test) = 2%nat /\
   length (questions (frame_test (foldl frame_click (synced_frame overflagged_test)
                                    stale_trace_after_correct))) = 1%nat).
Proof.
  split; [|split; [|split]].
  - revert f. induction clicks as [|c clicks IH]; intros f; [done|]. simpl.
    by rewrite IH, frame_click_title.
  - intros Hs c. rewrite (frame_click_in_sync f c Hs).
    by destruct (click_keeps (frame_test f) c) as (? & _ & ?).
  - intros Hok. destruct (frame_clicks_ok f clicks Hok) as [Hok' ->].
    split; [done|].
    by destruct (clicks_keep (frame_test f) clicks) as (? & _ & ?).
  - split; by vm_compute.
Qed.

Lemma clicks_keep_the_bank_witness :
  cursor_in_range
    (frame_test
       (foldl frame_click (synced_frame second_of_three)
          [ClickNext true; ClickSubmit [SpinCtrl 1; SpinCtrl 2; SpinCtrl 3];
           ClickNext true; ClickPrevious])).
Proof.
  destruct (clicks_keep_the_bank (synced_frame second_of_three)
              [ClickNext true; ClickSubmit [SpinCtrl 1; SpinCtrl 2; SpinCtrl 3];
               ClickNext true; ClickPrevious]) as (_ & _ & H & _).
  destruct H as (_ & _ & H).
  - split; [done|].
    by apply (bool_decide_eq_true_1 (Forall question_ok (questions second_of_three))).
  - apply H. unfold cursor_in_range. simpl. lia.
Defined.

(** X22: in a frame in sync the next button is enabled only while there is
    a next question, so a click on it moves to the next question and never
    reaches the summary: the answer to the summary dialog makes no
    difference, and at the last question the click does nothing, whereas
    the handler [on_next] run there with a question that is not correct
    starts the retry.  A frame whose refresh raised is not in sync: after
    the first four clicks of [stale_trace] the cursor is at the last
    question, the next button is still enabled, and a click on it, with
    yes in the dialog, does run [retry_incorrect]. *)
Theorem summary_unreachable_by_click (f : Frame) (retry : bool) :
  (in_sync f ->
   frame_test (frame_click f (ClickNext retry))
     = (if next_button (frame_buttons f)
        then (next_question (frame_test f)).1 else frame_test f) /\
   frame_click f (ClickNext retry) = frame_click f (ClickNext (negb retry)) /\
   ((next_question (frame_test f)).2 = false ->
    frame_click f (ClickNext retry) = f)) /\
  ((next_question (frame_test f)).2 = false ->
   incorrect_questions (frame_test f) <> [] ->
   frame_test (frame_on_next f true)
     = retry_incorrect (frame_test f) (incorrect_questions (frame_test f))) /\
  (let stale := foldl frame_click (synced_frame overflagged_test)
                  (take 4 stale_trace) in
   ~ in_sync stale /\
   (next_question (frame_test stale)).2 = false /\
   next_button (frame_buttons stale) = true /\
   frame_test (frame_click stale (ClickNext true))
     = retry_incorrect (frame_test stale) (incorrect_questions (frame_test stale)) /\
   frame_click stale (ClickNext false) = stale).
Proof.
  split; [|split].
  - intros Hs. destruct (in_sync_buttons f Hs) as (_ & Hnext & _).
    simpl. destruct (next_button (frame_buttons f)) eqn:Hn.
    + specialize (Hnext eq_refl). unfold frame_on_next. rewrite Hnext.
      split; [by rewrite update_view_test|]. split; [done|]. congruence.
    + done.
  - intros Hlast Hne. rewrite frame_on_next_test. unfold on_next.
    rewrite Hlast. by destruct (incorrect_questions (frame_test f)).
  - simpl. split; [intros H; vm_compute in H; discriminate|].
    repeat split; by vm_compute.
Qed.

Lemma summary_unreachable_by_click_witness :
  frame_click (synced_frame last_of_three) (ClickNext true)
    = synced_frame last_of_three /\
  frame_test (frame_on_next (synced_frame last_of_three) true)
    = retry_incorrect last_of_three (incorrect_questions last_of_three).
Proof.
  destruct (summary_unreachable_by_click (synced_frame last_of_three) true)
    as (Hsync & Hhandler & _).
  split.
  - destruct (Hsync eq_refl) as (_ & _ & H). by apply H.
  - by apply Hhandler.
Defined.
